(** * dict2anki: a shallow embedding of [dict2anki.go]

    The program loads a JSON configuration file, asks the Merriam-Webster
    API for a word, decodes the JSON answer into a [Card], asks a local
    AnkiConnect endpoint whether the card already exists and, if not, adds
    it as a note.

    Layout of the development:
    - [bytes]: Go strings are byte sequences, modelled by [string];
    - [json]: the part of Go's [encoding/json] that the program runs
      (scanner, unquoting, decoding into the two structs of the program);
    - [ankiconnect], [World], [M]: the outside world as an oracle, and a
      writer monad with panics in which the functions of the program are
      written in the order of the source;
    - the functions of [dict2anki.go] under their own names;
    - the properties. *)

From Stdlib Require Import String Ascii List ZArith NArith Bool Lia.
From stdpp Require Import gmap strings.

Open Scope list_scope.
Open Scope string_scope.

(** ** Bytes and strings *)

Module bytes.

(** The double quote, written by its code so that no literal of this file
    has to escape it. *)
Definition dquote : ascii := "034"%char.
Definition backslash : ascii := "092"%char.

Definition code (c : ascii) : N := N_of_ascii c.
Definition byte (n : N) : ascii := ascii_of_N n.

Definition between (lo hi : N) (c : ascii) : bool :=
  ((lo <=? code c) && (code c <=? hi))%N.

Definition is_digit (c : ascii) : bool := between 48 57 c.
Definition is_lower (c : ascii) : bool := between 97 122 c.
Definition is_upper (c : ascii) : bool := between 65 90 c.

Definition to_upper (c : ascii) : ascii :=
  if is_lower c then byte (code c - 32) else c.
Definition to_lower (c : ascii) : ascii :=
  if is_upper c then byte (code c + 32) else c.

Definition hex_val (c : ascii) : option N :=
  if is_digit c then Some (code c - 48)%N
  else if between 97 102 c then Some (code c - 87)%N
  else if between 65 70 c then Some (code c - 55)%N
  else None.

Definition str (c : ascii) : string := String c EmptyString.

Fixpoint of_list (l : list ascii) : string :=
  match l with
  | [] => EmptyString
  | c :: l' => String c (of_list l')
  end.

(** Number of occurrences of a byte in a string. *)
Fixpoint count (c : ascii) (s : string) : nat :=
  match s with
  | EmptyString => 0
  | String d s' => (if Ascii.eqb c d then 1 else 0) + count c s'
  end.

End bytes.

(** ** UTF-8, as far as [encoding/json] needs it *)

Module utf8.
Import bytes.

(** U+FFFD, what Go substitutes for bytes that are not valid UTF-8. *)
Definition RuneError : N := 65533%N.

(** [utf8.AppendRune]: the encoding of a rune (surrogates and values above
    U+10FFFF become [RuneError]). *)
Definition encode (r : N) : string :=
  let r := if ((55296 <=? r) && (r <=? 57343) || (1114111 <? r))%N
           then RuneError else r in
  if (r <? 128)%N then str (byte r)
  else if (r <? 2048)%N then
    of_list [byte (192 + r / 64); byte (128 + r mod 64)]
  else if (r <? 65536)%N then
    of_list [byte (224 + r / 4096); byte (128 + (r / 64) mod 64);
             byte (128 + r mod 64)]
  else
    of_list [byte (240 + r / 262144); byte (128 + (r / 4096) mod 64);
             byte (128 + (r / 64) mod 64); byte (128 + r mod 64)].

Definition cont (c : ascii) : bool := between 128 191 c.

(** The table [first] and the ranges [acceptRanges] of Go's [unicode/utf8]:
    for a leading byte, the length of the sequence and the range accepted
    for its second byte; [None] for a byte that starts no sequence. *)
Definition lead (c : ascii) : option (nat * N * N) :=
  let n := code c in
  let seq (len : nat) (lo hi : N) := Some (len, lo, hi) in
  if ((194 <=? n) && (n <=? 223))%N then seq 2%nat 128%N 191%N
  else if (n =? 224)%N then seq 3%nat 160%N 191%N
  else if ((225 <=? n) && (n <=? 236))%N then seq 3%nat 128%N 191%N
  else if (n =? 237)%N then seq 3%nat 128%N 159%N
  else if ((238 <=? n) && (n <=? 239))%N then seq 3%nat 128%N 191%N
  else if (n =? 240)%N then seq 4%nat 144%N 191%N
  else if ((241 <=? n) && (n <=? 243))%N then seq 4%nat 128%N 191%N
  else if (n =? 244)%N then seq 4%nat 128%N 143%N
  else None.

(** [width c s]: the number of bytes of the valid multi-byte sequence that
    starts with the byte [c] followed by [s]; [0] when there is none (Go's
    [DecodeRune] then yields [RuneError] with width 1). *)
Definition width (c : ascii) (s : string) : nat :=
  match lead c, s with
  | Some (2, lo, hi), String c1 _ =>
      if between lo hi c1 then 2 else 0
  | Some (3, lo, hi), String c1 (String c2 _) =>
      if between lo hi c1 && cont c2 then 3 else 0
  | Some (4, lo, hi), String c1 (String c2 (String c3 _)) =>
      if between lo hi c1 && cont c2 && cont c3 then 4 else 0
  | _, _ => 0
  end.

End utf8.

(** ** JSON: the scanner and the unquoting of [encoding/json] *)

Module json.
Import bytes.

#[local] Unset Elimination Schemes.
Inductive Value : Type :=
| JNull
| JBool (b : bool)
| JNumber (literal : string)
| JString (s : string)
| JArray (elems : list Value)
| JObject (members : list (string * Value)).
#[local] Set Elimination Schemes.

(** What the scanner reports. [OutOfFuel] belongs to the model only: the
    lemma [parse_fuel] below shows that [parse] never returns it. *)
Inductive ScanError : Type :=
| UnexpectedEnd
| InvalidCharacter (c : ascii)
| ExceededMaxDepth
| OutOfFuel.

Inductive parsed (A : Type) : Type :=
| Ok (a : A) (rest : string)
| Bad (e : ScanError).
Arguments Ok {A} a rest.
Arguments Bad {A} e.

(** [prepend p r]: the bytes [p] in front of what [r] has read. *)
Definition prepend (p : string) (r : parsed string) : parsed string :=
  match r with
  | Ok s rest => Ok (p ++ s) rest
  | Bad e => Bad e
  end.

Definition isSpace (c : ascii) : bool :=
  (c =? " ")%char || (c =? "009")%char || (c =? "013")%char
  || (c =? "010")%char.

Fixpoint skipSpace (s : string) : string :=
  match s with
  | String c r => if isSpace c then skipSpace r else s
  | EmptyString => EmptyString
  end.

(** The rest of a literal name ([true], [false], [null]). *)
Fixpoint expect (lit s : string) : parsed unit :=
  match lit with
  | EmptyString => Ok tt s
  | String c lit' =>
      match s with
      | EmptyString => Bad UnexpectedEnd
      | String d s' =>
          if (c =? d)%char then expect lit' s' else Bad (InvalidCharacter d)
      end
  end.

(** *** Numbers: the states [stateNeg], [state0], [state1], [stateDot],
    [stateE] of the scanner *)

Fixpoint digits (s : string) : string * string :=
  match s with
  | String c r =>
      if is_digit c then let (ds, r') := digits r in (String c ds, r')
      else (EmptyString, s)
  | EmptyString => (EmptyString, EmptyString)
  end.

Definition digits1 (s : string) : parsed string :=
  match s with
  | EmptyString => Bad UnexpectedEnd
  | String c _ =>
      if is_digit c then let (ds, r) := digits s in Ok ds r
      else Bad (InvalidCharacter c)
  end.

Definition exponent (lit s : string) : parsed string :=
  match s with
  | String c r =>
      if ((c =? "e") || (c =? "E"))%char then
        let (sign, r1) :=
          match r with
          | String d r' =>
              if ((d =? "+") || (d =? "-"))%char then (str d, r')
              else (EmptyString, r)
          | EmptyString => (EmptyString, r)
          end in
        prepend (lit ++ str c ++ sign) (digits1 r1)
      else Ok lit s
  | EmptyString => Ok lit s
  end.

Definition fraction (lit s : string) : parsed string :=
  match s with
  | String c r =>
      if (c =? ".")%char then
        match digits1 r with
        | Ok ds r1 => exponent (lit ++ "." ++ ds) r1
        | Bad e => Bad e
        end
      else exponent lit s
  | EmptyString => Ok lit s
  end.

Definition integer (s : string) : parsed string :=
  match s with
  | EmptyString => Bad UnexpectedEnd
  | String c r =>
      if (c =? "0")%char then Ok "0" r
      else if between 49 57 c then
        let (ds, r') := digits r in Ok (String c ds) r'
      else Bad (InvalidCharacter c)
  end.

Definition number (s : string) : parsed string :=
  let (sign, s1) :=
    match s with
    | String c r => if (c =? "-")%char then ("-", r) else (EmptyString, s)
    | EmptyString => (EmptyString, s)
    end in
  match integer s1 with
  | Ok i r => fraction (sign ++ i) r
  | Bad e => Bad e
  end.

(** *** Strings: the scanner's [stateInString] and [unquote] in one pass *)

Definition escape (c : ascii) : option ascii :=
  if (c =? dquote)%char then Some dquote
  else if (c =? backslash)%char then Some backslash
  else if (c =? "/")%char then Some "/"%char
  else if (c =? "b")%char then Some "008"%char
  else if (c =? "f")%char then Some "012"%char
  else if (c =? "n")%char then Some "010"%char
  else if (c =? "r")%char then Some "013"%char
  else if (c =? "t")%char then Some "009"%char
  else None.

Definition getu4 (h1 h2 h3 h4 : ascii) : option N :=
  match hex_val h1, hex_val h2, hex_val h3, hex_val h4 with
  | Some a, Some b, Some c, Some d =>
      Some (((a * 16 + b) * 16 + c) * 16 + d)%N
  | _, _, _, _ => None
  end.

(** The error of a [\u] escape that is not followed by four hexadecimal
    digits: the first offending byte, or the end of the input. *)
Fixpoint hexError (n : nat) (s : string) : ScanError :=
  match n with
  | O => UnexpectedEnd
  | S n' =>
      match s with
      | EmptyString => UnexpectedEnd
      | String c r =>
          match hex_val c with
          | Some _ => hexError n' r
          | None => InvalidCharacter c
          end
      end
  end.

Definition isSurrogate (r : N) : bool := ((55296 <=? r) && (r <? 57344))%N.

(** [utf16.DecodeRune]; [None] where Go returns the replacement character. *)
Definition decodeSurrogates (r1 r2 : N) : option N :=
  if ((55296 <=? r1) && (r1 <? 56320) && (56320 <=? r2) && (r2 <? 57344))%N
  then Some ((r1 - 55296) * 1024 + (r2 - 56320) + 65536)%N
  else None.

(** [stringBody s] reads a string literal whose opening quote has been
    consumed and returns its unquoted bytes: escapes are replaced, a
    surrogate pair of [\u] escapes is combined, a lone surrogate and every
    byte that is not valid UTF-8 become U+FFFD, and a control character or
    an unknown escape is a syntax error. *)
Fixpoint stringBody (s : string) : parsed string :=
  match s with
  | EmptyString => Bad UnexpectedEnd
  | String c r =>
    if (c =? dquote)%char then Ok EmptyString r
    else if (c =? backslash)%char then
      match r with
      | EmptyString => Bad UnexpectedEnd
      | String e r1 =>
        match escape e with
        | Some b => prepend (str b) (stringBody r1)
        | None =>
          if (e =? "u")%char then
            match r1 with
            | String h1 (String h2 (String h3 (String h4 r2))) =>
              match getu4 h1 h2 h3 h4 with
              | None => Bad (hexError 4 r1)
              | Some u =>
                if isSurrogate u then
                  match r2 with
                  | String b (String u'
                      (String k1 (String k2 (String k3 (String k4 r3))))) =>
                    match
                      (if ((b =? backslash) && (u' =? "u"))%char
                       then getu4 k1 k2 k3 k4 else None)
                    with
                    | Some lo =>
                      match decodeSurrogates u lo with
                      | Some rune => prepend (utf8.encode rune) (stringBody r3)
                      | None =>
                        prepend (utf8.encode utf8.RuneError) (stringBody r2)
                      end
                    | None =>
                      prepend (utf8.encode utf8.RuneError) (stringBody r2)
                    end
                  | _ => prepend (utf8.encode utf8.RuneError) (stringBody r2)
                  end
                else prepend (utf8.encode u) (stringBody r2)
              end
            | _ => Bad (hexError 4 r1)
            end
          else Bad (InvalidCharacter e)
        end
      end
    else if (code c <? 32)%N then Bad (InvalidCharacter c)
    else if (code c <? 128)%N then prepend (str c) (stringBody r)
    else
      match utf8.width c r, r with
      | 2, String c1 r' => prepend (of_list [c; c1]) (stringBody r')
      | 3, String c1 (String c2 r') =>
          prepend (of_list [c; c1; c2]) (stringBody r')
      | 4, String c1 (String c2 (String c3 r')) =>
          prepend (of_list [c; c1; c2; c3]) (stringBody r')
      | _, _ => prepend (utf8.encode utf8.RuneError) (stringBody r)
      end
  end.

(** *** Values *)

Definition maxNestingDepth : N := 10000%N.

(** [value fuel depth s] reads one JSON value at the head of [s], after
    white space, and returns it with the input that follows it. [depth] is
    the number of arrays and objects that are open. *)
Fixpoint value (fuel : nat) (depth : N) (s : string) {struct fuel}
  : parsed Value :=
  match fuel with
  | O => Bad OutOfFuel
  | S fuel' =>
    match skipSpace s with
    | EmptyString => Bad UnexpectedEnd
    | String c r =>
      if (c =? "{")%char then
        if (maxNestingDepth <? depth + 1)%N then Bad ExceededMaxDepth
        else
          match skipSpace r with
          | EmptyString => Bad UnexpectedEnd
          | String d r' =>
            if (d =? "}")%char then Ok (JObject []) r'
            else
              match members fuel' (depth + 1)%N r with
              | Ok ms r'' => Ok (JObject ms) r''
              | Bad e => Bad e
              end
          end
      else if (c =? "[")%char then
        if (maxNestingDepth <? depth + 1)%N then Bad ExceededMaxDepth
        else
          match skipSpace r with
          | EmptyString => Bad UnexpectedEnd
          | String d r' =>
            if (d =? "]")%char then Ok (JArray []) r'
            else
              match elements fuel' (depth + 1)%N r with
              | Ok vs r'' => Ok (JArray vs) r''
              | Bad e => Bad e
              end
          end
      else if (c =? dquote)%char then
        match stringBody r with
        | Ok str' r' => Ok (JString str') r'
        | Bad e => Bad e
        end
      else if ((c =? "-")%char || is_digit c) then
        match number (String c r) with
        | Ok lit r' => Ok (JNumber lit) r'
        | Bad e => Bad e
        end
      else if (c =? "t")%char then
        match expect "rue" r with
        | Ok _ r' => Ok (JBool true) r'
        | Bad e => Bad e
        end
      else if (c =? "f")%char then
        match expect "alse" r with
        | Ok _ r' => Ok (JBool false) r'
        | Bad e => Bad e
        end
      else if (c =? "n")%char then
        match expect "ull" r with
        | Ok _ r' => Ok JNull r'
        | Bad e => Bad e
        end
      else Bad (InvalidCharacter c)
    end
  end

(** The elements of an array that is not empty, up to its bracket. *)
with elements (fuel : nat) (depth : N) (s : string) {struct fuel}
  : parsed (list Value) :=
  match fuel with
  | O => Bad OutOfFuel
  | S fuel' =>
    match value fuel' depth s with
    | Bad e => Bad e
    | Ok v r =>
      match skipSpace r with
      | EmptyString => Bad UnexpectedEnd
      | String c r' =>
        if (c =? ",")%char then
          match elements fuel' depth r' with
          | Ok vs r'' => Ok (v :: vs) r''
          | Bad e => Bad e
          end
        else if (c =? "]")%char then Ok [v] r'
        else Bad (InvalidCharacter c)
      end
    end
  end

(** The members of an object that is not empty, up to its brace. *)
with members (fuel : nat) (depth : N) (s : string) {struct fuel}
  : parsed (list (string * Value)) :=
  match fuel with
  | O => Bad OutOfFuel
  | S fuel' =>
    match skipSpace s with
    | EmptyString => Bad UnexpectedEnd
    | String c r =>
      if (c =? dquote)%char then
        match stringBody r with
        | Bad e => Bad e
        | Ok key r1 =>
          match skipSpace r1 with
          | EmptyString => Bad UnexpectedEnd
          | String c1 r2 =>
            if (c1 =? ":")%char then
              match value fuel' depth r2 with
              | Bad e => Bad e
              | Ok v r3 =>
                match skipSpace r3 with
                | EmptyString => Bad UnexpectedEnd
                | String c2 r4 =>
                  if (c2 =? ",")%char then
                    match members fuel' depth r4 with
                    | Ok ms r5 => Ok ((key, v) :: ms) r5
                    | Bad e => Bad e
                    end
                  else if (c2 =? "}")%char then Ok [(key, v)] r4
                  else Bad (InvalidCharacter c2)
                end
              end
            else Bad (InvalidCharacter c1)
          end
        end
      else Bad (InvalidCharacter c)
    end
  end.

(** The first JSON value of [s]. Each call of the three functions above
    that does not read a byte is followed by one that does, hence the
    fuel. *)
Definition parse (s : string) : parsed Value :=
  value (2 * String.length s + 2) 0%N s.

(** [checkValid]: the whole of [data] is one JSON value between white
    space. *)
Definition checkValid (data : string) : Value + ScanError :=
  match parse data with
  | Bad e => inr e
  | Ok v rest =>
      match skipSpace rest with
      | EmptyString => inl v
      | String c _ => inr (InvalidCharacter c)
      end
  end.

End json.

(** ** Go's [error] values

    The values of the interface [error] that the program can meet: its own
    ([errors.New]), those of [encoding/json] and [io], and those of the
    operating system and of the network, which the world supplies. *)

Inductive error : Type :=
| errors_New (text : string)
| SyntaxError (e : json.ScanError)
| UnmarshalTypeError (value : string) (type : string)
| io_EOF
| io_ErrUnexpectedEOF
| SystemError (text : string).

(** ** Readers and slices *)

(** An [io.Reader]: the bytes it delivers, and how it ends: [None] for the
    end of the file, [Some e] for a failing read. *)
Record Reader : Type := { data : string; fault : option error }.

(** [io.ReadAll]: the end of the file is not an error. *)
Definition io_ReadAll (r : Reader) : string * option error :=
  (data r, fault r).

(** A Go slice: its length and the content of its backing array. Decoding
    into a slice reuses the backing array, so what an earlier value of the
    slice has left beyond [len] can come back; every element beyond [array]
    is the zero value. *)
Record slice (A : Type) : Type := { array : list A; len : nat }.
Arguments array {A} s.
Arguments len {A} s.

(** The zero value of a Go type. *)
Class Zero (A : Type) : Type := zero : A.
#[global] Instance string_zero : Zero string := EmptyString.

Definition nil_slice {A : Type} : slice A := {| array := []; len := 0 |}.
Definition slice_of {A : Type} (l : list A) : slice A :=
  {| array := l; len := length l |}.

(** The elements of a slice, [s[0]] to [s[len(s)-1]]. *)
Definition elems {A : Type} `{Zero A} (s : slice A) : list A :=
  firstn (len s) (array s ++ repeat zero (len s))%list.

(** ** The data of the program *)

Record Config : Type := { APIKey : string; DeckName : string }.

Record Card : Type :=
  { Word : string; PartOfSpeech : string; Definitions : slice string }.

(** The zero values [Config{}] and [Card{}]. *)
Definition Config_zero : Config := {| APIKey := ""; DeckName := "" |}.
Definition Card_zero : Card :=
  {| Word := ""; PartOfSpeech := ""; Definitions := nil_slice |}.

(** ** Decoding JSON values into Go values *)

Module unmarshal.
Import bytes json.

(** [foldName]: the key under which names are compared without case.
    ASCII letters go to upper case; U+212A (Kelvin sign) and U+017F (long
    s) are the two runes outside ASCII whose case orbit holds an ASCII
    letter. Other runes outside ASCII are kept as they are, which is all
    that comparing with the ASCII names of this program can see. *)
Fixpoint foldName (s : string) : string :=
  match s with
  | EmptyString => EmptyString
  | String c r =>
    match r with
    | String c1 r1 =>
      if ((code c =? 197) && (code c1 =? 191))%N
      then String "S" (foldName r1)
      else
        match r1 with
        | String c2 r2 =>
          if ((code c =? 226) && (code c1 =? 132) && (code c2 =? 170))%N
          then String "K" (foldName r2)
          else String (to_upper c) (foldName r)
        | EmptyString => String (to_upper c) (foldName r)
        end
    | EmptyString => String (to_upper c) (foldName r)
    end
  end.

(** The field that a key of a JSON object names: the field of that exact
    name, or else the first field of that name up to case. *)
Definition lookupField {F : Type} (fields : list (string * F))
    (key : string) : option F :=
  match find (fun nf => String.eqb (fst nf) key) fields with
  | Some nf => Some (snd nf)
  | None =>
      match find (fun nf => String.eqb (foldName (fst nf)) (foldName key))
              fields with
      | Some nf => Some (snd nf)
      | None => None
      end
  end.

(** [saveError]: the decoder goes on after a value of the wrong type and
    reports the first such error at the end. *)
Definition saveError (saved new : option error) : option error :=
  match saved with
  | Some _ => saved
  | None => new
  end.

Definition kind (v : Value) : string :=
  match v with
  | JNull => "null"
  | JBool _ => "bool"
  | JNumber _ => "number"
  | JString _ => "string"
  | JArray _ => "array"
  | JObject _ => "object"
  end.

(** Into a Go [string]: a JSON string is stored, [null] changes nothing,
    anything else is an error that leaves the string as it was. *)
Definition storeString (cur : string) (v : Value) : string * option error :=
  match v with
  | JString s => (s, None)
  | JNull => (cur, None)
  | _ => (cur, Some (UnmarshalTypeError (kind v) "string"))
  end.

(** The elements of a JSON array into the backing array [old]: element
    [i] is decoded into what is stored at index [i]. *)
Fixpoint storeStrings (old : list string) (vs : list Value)
  : list string * option error :=
  match vs with
  | [] => (old, None)
  | v :: vs' =>
      let (x, e1) := storeString (hd zero old) v in
      let (xs, e2) := storeStrings (tl old) vs' in
      (x :: xs, saveError e1 e2)
  end.

(** Into a Go [[]string]. *)
Definition storeStringSlice (cur : slice string) (v : Value)
  : slice string * option error :=
  match v with
  | JArray [] => (nil_slice, None)
  | JArray vs =>
      let (arr, e) := storeStrings (array cur) vs in
      ({| array := arr; len := length vs |}, e)
  | JNull => (nil_slice, None)
  | _ => (cur, Some (UnmarshalTypeError (kind v) "[]string"))
  end.

(** The members of a JSON object into a struct, in their order: a key
    that names no field is skipped with its value. *)
Definition object {S F : Type} (fields : list (string * F))
    (store : F -> S -> Value -> S * option error)
    (ms : list (string * Value)) (cur : S) : S * option error :=
  fold_left
    (fun (acc : S * option error) (kv : string * Value) =>
       match lookupField fields (fst kv) with
       | None => acc
       | Some f =>
           let (s', e) := store f (fst acc) (snd kv) in
           (s', saveError (snd acc) e)
       end)
    ms (cur, None).

(** *** [Config], with its tags [apiKey] and [deckName] *)

Inductive ConfigField : Type := FAPIKey | FDeckName.

Definition ConfigFields : list (string * ConfigField) :=
  [("apiKey", FAPIKey); ("deckName", FDeckName)].

Definition storeConfigField (f : ConfigField) (c : Config) (v : Value)
  : Config * option error :=
  match f with
  | FAPIKey =>
      let (s, e) := storeString (APIKey c) v in
      ({| APIKey := s; DeckName := DeckName c |}, e)
  | FDeckName =>
      let (s, e) := storeString (DeckName c) v in
      ({| APIKey := APIKey c; DeckName := s |}, e)
  end.

Definition storeConfig (cur : Config) (v : Value) : Config * option error :=
  match v with
  | JObject ms => object ConfigFields storeConfigField ms cur
  | JNull => (cur, None)
  | _ => (cur, Some (UnmarshalTypeError (kind v) "main.Config"))
  end.

(** *** [Card]: [Word] has no tag, the two others are [fl] and
    [shortdef] *)

Inductive CardField : Type := FWord | FPartOfSpeech | FDefinitions.

Definition CardFields : list (string * CardField) :=
  [("Word", FWord); ("fl", FPartOfSpeech); ("shortdef", FDefinitions)].

Definition storeCardField (f : CardField) (c : Card) (v : Value)
  : Card * option error :=
  match f with
  | FWord =>
      let (s, e) := storeString (Word c) v in
      ({| Word := s; PartOfSpeech := PartOfSpeech c;
          Definitions := Definitions c |}, e)
  | FPartOfSpeech =>
      let (s, e) := storeString (PartOfSpeech c) v in
      ({| Word := Word c; PartOfSpeech := s;
          Definitions := Definitions c |}, e)
  | FDefinitions =>
      let (d, e) := storeStringSlice (Definitions c) v in
      ({| Word := Word c; PartOfSpeech := PartOfSpeech c;
          Definitions := d |}, e)
  end.

Definition storeCard (cur : Card) (v : Value) : Card * option error :=
  match v with
  | JObject ms => object CardFields storeCardField ms cur
  | JNull => (cur, None)
  | _ => (cur, Some (UnmarshalTypeError (kind v) "main.Card"))
  end.

(** The elements of a JSON array into a [[]Card] that was [nil]: every
    element starts from the zero [Card]. *)
Fixpoint storeCardElems (vs : list Value) : list Card * option error :=
  match vs with
  | [] => ([], None)
  | v :: vs' =>
      let (c, e1) := storeCard Card_zero v in
      let (cs, e2) := storeCardElems vs' in
      (c :: cs, saveError e1 e2)
  end.

(** Into the variable [cards] of [parseResponse], a [[]Card] that is
    [nil] when decoding starts; the slice is given by its elements. *)
Definition storeCards (cur : list Card) (v : Value)
  : list Card * option error :=
  match v with
  | JArray vs => storeCardElems vs
  | JNull => ([], None)
  | _ => (cur, Some (UnmarshalTypeError (kind v) "[]main.Card"))
  end.

(** *** The two entry points *)

(** [json.Unmarshal(data, &cur)]: the whole of [data] is checked first;
    nothing is stored when it is not one valid JSON value. *)
Definition Unmarshal {T : Type} (store : T -> Value -> T * option error)
    (data : string) (cur : T) : T * option error :=
  match checkValid data with
  | inr e => (cur, Some (SyntaxError e))
  | inl v => store cur v
  end.

(** [json.NewDecoder(r).Decode(&cur)]: the first JSON value of the stream
    is decoded and what follows it is left unread. An array or an object
    ends with its bracket; any other value ends with the byte after it or
    with the end of the file. *)
Definition Decode {T : Type} (store : T -> Value -> T * option error)
    (r : Reader) (cur : T) : T * option error :=
  match parse (data r) with
  | Ok v rest =>
      let ended :=
        match v with
        | JArray _ | JObject _ => true
        | _ => negb (String.eqb rest "")
        end in
      match ended, fault r with
      | false, Some e => (cur, Some e)
      | _, _ => store cur v
      end
  | Bad UnexpectedEnd =>
      match fault r with
      | Some e => (cur, Some e)
      | None =>
          if String.eqb (skipSpace (data r)) ""
          then (cur, Some io_EOF)
          else (cur, Some io_ErrUnexpectedEOF)
      end
  | Bad e => (cur, Some (SyntaxError e))
  end.

End unmarshal.

(** ** The libraries the program calls *)

Module ankiconnect.

Record RestErr : Type :=
  { Message : string; StatusCode : Z; Error : string }.

(** One card of the answer of [Cards.Get]; the program only counts them. *)
Record ResultCardsInfo : Type := { CardId : Z }.

(** [ankiconnect.Note], with [ankiconnect.Fields], a map from field names
    to texts. *)
Record Note : Type :=
  { DeckName : string; ModelName : string; Fields : gmap string string }.

End ankiconnect.

Module http.
(** [http.Response], of which the program reads the body. *)
Record Response : Type := { Body : Reader }.
End http.

(** [cases.Caser]: the one method the program calls. [cases.Title] belongs
    to [golang.org/x/text]; the program is modelled over any caser. *)
Class Caser : Type := Caser_String : string -> string.

(** A caser for ASCII words separated by other bytes: the first letter of a
    word in upper case, its other letters in lower case. This is how
    [cases.Title(language.AmericanEnglish)] treats words of ASCII letters
    separated by spaces; it serves the examples. *)
Fixpoint asciiTitleFrom (midWord : bool) (s : string) : string :=
  match s with
  | EmptyString => EmptyString
  | String c r =>
      if bytes.is_lower c || bytes.is_upper c then
        String (if midWord then bytes.to_lower c else bytes.to_upper c)
               (asciiTitleFrom true r)
      else String c (asciiTitleFrom false r)
  end.

Definition asciiTitle : Caser := asciiTitleFrom false.

(** ** The world and the monad of the program *)

(** What the outside answers, call by call. Every call is made at most once
    in a run, so an answer depends on the arguments only.
    - [os_Args]: the argument vector, program name first;
    - [Cards_Get] returns two pointers, one to a slice of cards and one to
      an error: each of them can be [nil]. *)
Record World : Type :=
  { os_Args : list string;
    os_UserHomeDir : string + error;
    os_Open : string -> Reader + error;
    http_Get : string -> http.Response + error;
    Client_Ping : option ankiconnect.RestErr;
    Cards_Get : string ->
      option (list ankiconnect.ResultCardsInfo) * option ankiconnect.RestErr;
    Notes_Add : ankiconnect.Note -> option ankiconnect.RestErr }.

(** What a run does that the outside can see, in order. [EvPrintln] is the
    builtin [println], one line each. *)
Inductive Event : Type :=
| EvPrintln (line : string)
| EvUserHomeDir
| EvOpen (path : string)
| EvClose (path : string)
| EvHttpGet (url : string)
| EvPing
| EvCardsGet (query : string)
| EvNotesAdd (note : ankiconnect.Note).

(** The run-time panics of the program. *)
Inductive Panic : Type :=
| IndexOutOfRange (index length : nat)
| NilDereference.

Inductive Outcome (A : Type) : Type :=
| Returned (a : A)
| Panicked (p : Panic).
Arguments Returned {A} a.
Arguments Panicked {A} p.

(** A computation reads the world and yields an outcome and the events it
    has caused; a panic stops everything that follows. *)
Definition M (A : Type) : Type := World -> Outcome A * list Event.

#[global] Instance M_ret : MRet M :=
  fun A (a : A) (w : World) => (Returned a, []).

#[global] Instance M_bind : MBind M :=
  fun A B (f : A -> M B) (m : M A) (w : World) =>
    match m w with
    | (Returned a, t1) =>
        match f a w with
        | (o, t2) => (o, (t1 ++ t2)%list)
        end
    | (Panicked p, t1) => (Panicked p, t1)
    end.

Definition ask {A : Type} (q : World -> A) (e : list Event) : M A :=
  fun w => (Returned (q w), e).

Definition panic {A : Type} (p : Panic) : M A := fun _ => (Panicked p, []).

Definition println (line : string) : M unit := ask (fun _ => tt) [EvPrintln line].

(** [l[i]], with Go's bounds check. *)
Definition elemAt {A : Type} (l : list A) (i : nat) : M A :=
  match nth_error l i with
  | Some a => mret a
  | None => panic (IndexOutOfRange i (length l))
  end.

(** [*p], with Go's nil check. *)
Definition deref {A : Type} (p : option A) : M A :=
  match p with
  | Some a => mret a
  | None => panic NilDereference
  end.

Module os.
Definition Args : M (list string) := ask os_Args [].
Definition UserHomeDir : M (string + error) := ask os_UserHomeDir [EvUserHomeDir].
Definition Open (path : string) : M (Reader + error) :=
  ask (fun w => os_Open w path) [EvOpen path].
Definition Close (path : string) : M unit := ask (fun _ => tt) [EvClose path].
End os.

Module client.
Definition Get (url : string) : M (http.Response + error) :=
  ask (fun w => http_Get w url) [EvHttpGet url].
Definition Ping : M (option ankiconnect.RestErr) := ask Client_Ping [EvPing].
Definition CardsGet (query : string)
  : M (option (list ankiconnect.ResultCardsInfo)
       * option ankiconnect.RestErr) :=
  ask (fun w => Cards_Get w query) [EvCardsGet query].
Definition NotesAdd (note : ankiconnect.Note)
  : M (option ankiconnect.RestErr) :=
  ask (fun w => Notes_Add w note) [EvNotesAdd note].
End client.

(** ** The program *)

Definition quote : string := bytes.str bytes.dquote.
Definition newline : string := bytes.str "010"%char.
Definition tab : string := bytes.str "009"%char.

Definition helpText : string :=
  String.concat newline
    [ "dict2anki is a tool for quickly creating Anki cards from words.";
      "";
      "Usage:";
      "";
      "        dict2anki <word>";
      "";
      "Note:";
      "";
      tab ++ tab ++ "This tool requires a valid Merriam-Webster API key and a deck name specified in the config file located at "
        ++ quote ++ "~/.config/dict2anki/config.json" ++ quote;
      tab ++ tab ++ "Also required is a running instance of Anki with AnkiConnect." ].

Definition printHelp : M unit := println helpText.

Definition configPath (home : string) : string :=
  home ++ "/.config/dict2anki/config.json".

Definition LoadConfig : M (Config * option error) :=
  home ← os.UserHomeDir;
  match home with
  | inr err => mret (Config_zero, Some err)
  | inl home =>
      f ← os.Open (configPath home);
      match f with
      | inr err => mret (Config_zero, Some err)
      | inl f =>
          let (newConfig, err) :=
            unmarshal.Decode unmarshal.storeConfig f Config_zero in
          _ ← os.Close (configPath home);
          match err with
          | Some err => mret (Config_zero, Some err)
          | None => mret (newConfig, None)
          end
      end
  end.

Definition parseResponse (responseBody : Reader) : M (Card * option error) :=
  let (cardJson, err) := io_ReadAll responseBody in
  match err with
  | Some err =>
      _ ← println "Error: Failed to read response body.";
      mret (Card_zero, Some err)
  | None =>
      let (cards, err) :=
        unmarshal.Unmarshal unmarshal.storeCards cardJson [] in
      match err with
      | Some err =>
          _ ← println "Error: Failed to parse response body JSON.";
          mret (Card_zero, Some err)
      | None =>
          card ← elemAt cards 0;
          mret (card, None)
      end
  end.

Definition definitionURL (word key : string) : string :=
  "https://www.dictionaryapi.com/api/v3/references/collegiate/json/"
    ++ word ++ "?key=" ++ key.

Definition requestDefinition (word key : string) : M (Card * option error) :=
  response ← client.Get (definitionURL word key);
  match response with
  | inr err =>
      _ ← println "Error: Failed to contact Merriam-Webster.";
      mret (Card_zero, Some err)
  | inl response =>
      '(card, err) ← parseResponse (http.Body response);
      match err with
      | Some err =>
          _ ← println "Error: Failed to parse response";
          mret (Card_zero, Some err)
      | None =>
          let card := {| Word := word;
                         PartOfSpeech := PartOfSpeech card;
                         Definitions := Definitions card |} in
          mret (card, None)
      end
  end.

(** The two functions that follow take a [*ankiconnect.Client] in the
    source: it is the endpoint of the world. *)
Definition duplicateQuery (word deck : string) : string :=
  quote ++ "deck:" ++ deck ++ quote ++ " " ++ quote ++ "front:" ++ word
    ++ quote.

Definition checkDeckForDuplicate (word deck : string)
  : M (bool * option error) :=
  '(cards, restErr) ← client.CardsGet (duplicateQuery word deck);
  match restErr with
  | Some _ => mret (false, Some (errors_New "AnkiConnect error."))
  | None =>
      cards ← deref cards;
      if negb (length cards =? 0)%nat then mret (true, None)
      else mret (false, None)
  end.

Section WithCaser.
Context {Title : Caser}.

Definition makeNote (card : Card) (deck : string) : ankiconnect.Note :=
  {| ankiconnect.DeckName := deck;
     ankiconnect.ModelName := "Basic";
     ankiconnect.Fields :=
       {[ "Front" := Caser_String (Word card);
          "Back" := PartOfSpeech card ++ "<br><br>"
                      ++ String.concat "<br>" (elems (Definitions card)) ]} |}.

Definition addCardToDeck (card : Card) (deck : string) : M (option error) :=
  let note := makeNote card deck in
  restErr ← client.NotesAdd note;
  match restErr with
  | Some _ => mret (Some (errors_New "Ankiconnect error"))
  | None => mret None
  end.

Definition main : M unit :=
  args ← os.Args;
  (* Validate arguments *)
  if (length args =? 0)%nat then printHelp
  else
    (* Load config *)
    '(config, err) ← LoadConfig;
    match err with
    | Some _ => println "Fatal: Failed to open config file."
    | None =>
      (* Connect to Anki *)
      restErr ← client.Ping;
      match restErr with
      | Some _ =>
          println "Fatal: Failed to connect to Anki. Is it running? Does it have AnkiConnect?"
      | None =>
        (* Make our request *)
        word ← elemAt args 1;
        '(card, err) ← requestDefinition word (APIKey config);
        match err with
        | Some _ =>
            println "Fatal: Failed to connect to Merriam-Webster and Wiktionary, or failed to parse response."
        | None =>
          (* Print card *)
          _ ← println (Word card);
          _ ← println (PartOfSpeech card);
          _ ← println (String.concat newline (elems (Definitions card)));
          (* Check if the card is already in the Anki deck *)
          '(duplicateExists, err) ←
            checkDeckForDuplicate (Word card) (DeckName config);
          match err with
          | Some _ => println "Fatal: Failed to query deck for duplicates."
          | None =>
            if (duplicateExists : bool) then
              println "Duplicate detected, omitting."
            else
              (* Write to Anki deck *)
              err ← addCardToDeck card (DeckName config);
              match err with
              | Some _ => println "Fatal: Failed to add card to deck."
              | None => println "Done."
              end
          end
        end
      end
    end.

(** The exit status of the process: [0] when [main] returns, [2] when the
    run-time ends the program on a panic. *)
Definition exitStatus (w : World) : Z :=
  match fst (main w) with
  | Returned _ => 0
  | Panicked _ => 2
  end.

End WithCaser.

(** ** Vocabulary of the properties *)

(** The events that reach the AnkiConnect endpoint to search or to add. *)
Definition isAnki (e : Event) : bool :=
  match e with
  | EvCardsGet _ | EvNotesAdd _ => true
  | _ => false
  end.

(** A trace without a search and without an insertion. *)
Definition quiet (t : list Event) : Prop :=
  Forall (fun e => isAnki e = false) t.

Definition endsWithPrintln (t : list Event) : Prop :=
  exists pre line, t = (pre ++ [EvPrintln line])%list.

(** The stages of [requestDefinition], the one that fails in a world, with
    its error, and the lines that each stage prints when it fails. *)
Inductive Stage : Type := StageGet | StageRead | StageDecode.

Definition failingStage (w : World) (word key : string)
  : option (Stage * error) :=
  match http_Get w (definitionURL word key) with
  | inr e => Some (StageGet, e)
  | inl resp =>
      match fault (http.Body resp) with
      | Some e => Some (StageRead, e)
      | None =>
          match snd (unmarshal.Unmarshal unmarshal.storeCards
                       (data (http.Body resp)) []) with
          | Some e => Some (StageDecode, e)
          | None => None
          end
      end
  end.

Definition diagnostic (st : Stage) : list string :=
  match st with
  | StageGet => ["Error: Failed to contact Merriam-Webster."]
  | StageRead =>
      ["Error: Failed to read response body.";
       "Error: Failed to parse response"]
  | StageDecode =>
      ["Error: Failed to parse response body JSON.";
       "Error: Failed to parse response"]
  end.

Definition fetchFatal : string :=
  "Fatal: Failed to connect to Merriam-Webster and Wiktionary, or failed to parse response.".

(** Members of a configuration object: a value that a Go [string] accepts,
    an object whose members that name a field of [Config] all hold such
    values, and an object in which no member names the field [f]. A member
    names a field by its exact name or by its name up to case. *)
Definition stringOrNull (v : json.Value) : bool :=
  match v with
  | json.JString _ | json.JNull => true
  | _ => false
  end.

Definition wellTyped (ms : list (string * json.Value)) : Prop :=
  forall k v, In (k, v) ms ->
              unmarshal.lookupField unmarshal.ConfigFields k <> None ->
              stringOrNull v = true.

Definition missing (f : unmarshal.ConfigField)
    (ms : list (string * json.Value)) : Prop :=
  forall k v, In (k, v) ms ->
              unmarshal.lookupField unmarshal.ConfigFields k <> Some f.

(** What the scanner's functions guarantee: a result leaves less input than
    there was ([sound]) or no more ([soundLe], for those that may read
    nothing), and an error is never the lack of fuel. *)
Definition sound {A : Type} (s : string) (r : json.parsed A) : Prop :=
  match r with
  | json.Ok _ rest => String.length rest < String.length s
  | json.Bad e => e <> json.OutOfFuel
  end.

Definition soundLe {A : Type} (s : string) (r : json.parsed A) : Prop :=
  match r with
  | json.Ok _ rest => String.length rest <= String.length s
  | json.Bad e => e <> json.OutOfFuel
  end.

(** What [main] does once it holds the card: the duplicate check and the
    insertion. *)
Definition addUnlessDuplicate {Title : Caser} (card : Card) (config : Config)
  : M unit :=
  '(duplicateExists, err) ← checkDeckForDuplicate (Word card) (DeckName config);
  match err with
  | Some _ => println "Fatal: Failed to query deck for duplicates."
  | None =>
    if (duplicateExists : bool) then println "Duplicate detected, omitting."
    else
      err ← addCardToDeck card (DeckName config);
      match err with
      | Some _ => println "Fatal: Failed to add card to deck."
      | None => println "Done."
      end
  end.

(** *** Worlds of the examples *)

Module example.

(** [q s]: the JSON string literal of a text without escapes. *)
Definition q (s : string) : string := quote ++ s ++ quote.

Definition configText : string :=
  "{" ++ q "apiKey" ++ ":" ++ q "K" ++ ","
      ++ q "deckName" ++ ":" ++ q "English" ++ "}".

(** An array of one element: part of speech [verb], one definition. *)
Definition runText : string :=
  "[{" ++ q "fl" ++ ":" ++ q "verb" ++ ","
       ++ q "shortdef" ++ ":[" ++ q "to move fast" ++ "]}]".

(** An answer whose first element has a word of its own, and a second
    element. *)
Definition walkText : string :=
  "[{" ++ q "Word" ++ ":" ++ q "walk" ++ "," ++ q "fl" ++ ":" ++ q "verb"
       ++ "," ++ q "shortdef" ++ ":[" ++ q "to move fast" ++ "]},{"
       ++ q "fl" ++ ":" ++ q "noun" ++ "}]".

(** A configuration without [apiKey] whose [deckName] is a number, one
    that names a deck only, and one that is an array. *)
Definition numberDeckText : string := "{" ++ q "deckName" ++ ":7}".
Definition deckOnlyText : string :=
  "{" ++ q "deckName" ++ ":" ++ q "English" ++ "}".
Definition arrayText : string := "[]".

(** The answer for a word that the dictionary does not know: an array of
    words that it suggests. *)
Definition suggestionText : string := "[" ++ q "tide" ++ "]".

Definition file (text : string) : Reader := {| data := text; fault := None |}.

Definition home : string := "/home/u".

(** A world in which everything outside works: the home directory is
    [/home/u], the configuration file holds [config], the dictionary
    answers [response], Anki is up and finds the cards [found]. *)
Definition world (args : list string) (config response : string)
    (found : list ankiconnect.ResultCardsInfo) : World :=
  {| os_Args := args;
     os_UserHomeDir := inl home;
     os_Open := fun path =>
       if String.eqb path (configPath home) then inl (file config)
       else inr (SystemError "no such file or directory");
     http_Get := fun _ => inl {| http.Body := file response |};
     Client_Ping := None;
     Cards_Get := fun _ => (Some found, None);
     Notes_Add := fun _ => None |}.

(** The same world with a dictionary that fails in a given way. *)
Definition worldWithGet (get : http.Response + error) : World :=
  {| os_Args := ["dict2anki"; "run"];
     os_UserHomeDir := inl home;
     os_Open := fun path =>
       if String.eqb path (configPath home) then inl (file configText)
       else inr (SystemError "no such file or directory");
     http_Get := fun _ => get;
     Client_Ping := None;
     Cards_Get := fun _ => (Some [], None);
     Notes_Add := fun _ => None |}.

(** The same world with an Anki whose search fails. *)
Definition worldWithSearch
    (answer : option (list ankiconnect.ResultCardsInfo)
              * option ankiconnect.RestErr) : World :=
  {| os_Args := ["dict2anki"; "run"];
     os_UserHomeDir := inl home;
     os_Open := fun path =>
       if String.eqb path (configPath home) then inl (file configText)
       else inr (SystemError "no such file or directory");
     http_Get := fun _ => inl {| http.Body := file runText |};
     Client_Ping := None;
     Cards_Get := fun _ => answer;
     Notes_Add := fun _ => None |}.

Definition runCard : Card :=
  {| Word := "run"; PartOfSpeech := "verb";
     Definitions := slice_of ["to move fast"] |}.

Definition oneCard : ankiconnect.ResultCardsInfo :=
  {| ankiconnect.CardId := 1 |}.

Definition refused : ankiconnect.RestErr :=
  {| ankiconnect.Message := "connection refused";
     ankiconnect.StatusCode := 500;
     ankiconnect.Error := "Internal Server Error" |}.

End example.

(** ** Vocabulary of the further properties *)

(** Plain text: printable ASCII bytes other than the double quote and the
    backslash. A JSON string literal holds such a text as it is, between
    two double quotes. *)
Definition plainByte (c : ascii) : bool :=
  bytes.between 32 126 c
  && negb (Ascii.eqb c bytes.dquote) && negb (Ascii.eqb c bytes.backslash).

Fixpoint plain (s : string) : bool :=
  match s with
  | EmptyString => true
  | String c r => plainByte c && plain r
  end.

Definition literal (s : string) : string := quote ++ s ++ quote.

(** String literals separated by commas. *)
Fixpoint literals (ds : list string) : string :=
  match ds with
  | [] => EmptyString
  | d :: ds' =>
      match ds' with
      | [] => literal d
      | _ :: _ => literal d ++ "," ++ literals ds'
      end
  end.

(** The configuration file that names a key and a deck, and the answer of
    the dictionary that has one entry with a part of speech and
    definitions, written without white space. *)
Definition configJSON (key deck : string) : string :=
  "{" ++ literal "apiKey" ++ ":" ++ literal key ++ ","
      ++ literal "deckName" ++ ":" ++ literal deck ++ "}".

Definition entryJSON (p : string) (ds : list string) : string :=
  "[{" ++ literal "fl" ++ ":" ++ literal p ++ ","
       ++ literal "shortdef" ++ ":[" ++ literals ds ++ "]}]".

(** A JSON value that a [Card] accepts at all: an object or [null]. *)
Definition cardKind (v : json.Value) : bool :=
  match v with
  | json.JObject _ | json.JNull => true
  | _ => false
  end.

(** A JSON value that sets no field of a [Card]: [null], or an object none
    of whose members names a field. *)
Definition setsNothing (v : json.Value) : Prop :=
  match v with
  | json.JNull => True
  | json.JObject ms =>
      forall k x, In (k, x) ms ->
                  unmarshal.lookupField unmarshal.CardFields k = None
  | _ => False
  end.

(** The calls that a run makes outside, without what it prints. *)
Inductive Call : Type :=
| CallHome | CallOpen | CallClose | CallPing | CallGet | CallSearch | CallAdd.

Definition callOf (e : Event) : option Call :=
  match e with
  | EvPrintln _ => None
  | EvUserHomeDir => Some CallHome
  | EvOpen _ => Some CallOpen
  | EvClose _ => Some CallClose
  | EvHttpGet _ => Some CallGet
  | EvPing => Some CallPing
  | EvCardsGet _ => Some CallSearch
  | EvNotesAdd _ => Some CallAdd
  end.

Definition calls (t : list Event) : list Call := omap callOf t.

Definition callOrder : list Call :=
  [CallHome; CallOpen; CallClose; CallPing; CallGet; CallSearch; CallAdd].

(** The three lines that [main] prints for the card it has fetched. *)
Definition shown (card : Card) : list Event :=
  [EvPrintln (Word card); EvPrintln (PartOfSpeech card);
   EvPrintln (String.concat newline (elems (Definitions card)))].

(** The ways in which a run ends once the card is fetched, by what the
    endpoint answers. *)
Inductive AfterFetch {Title : Caser} (w : World) (card : Card)
    (config : Config) : Outcome unit -> list Event -> Prop :=
| SearchFailed p r :
    Cards_Get w (duplicateQuery (Word card) (DeckName config)) = (p, Some r) ->
    AfterFetch w card config (Returned tt)
      [EvCardsGet (duplicateQuery (Word card) (DeckName config));
       EvPrintln "Fatal: Failed to query deck for duplicates."]
| SearchNil :
    Cards_Get w (duplicateQuery (Word card) (DeckName config)) = (None, None) ->
    AfterFetch w card config (Panicked NilDereference)
      [EvCardsGet (duplicateQuery (Word card) (DeckName config))]
| Duplicate c cs :
    Cards_Get w (duplicateQuery (Word card) (DeckName config))
    = (Some (c :: cs), None) ->
    AfterFetch w card config (Returned tt)
      [EvCardsGet (duplicateQuery (Word card) (DeckName config));
       EvPrintln "Duplicate detected, omitting."]
| AddFailed r :
    Cards_Get w (duplicateQuery (Word card) (DeckName config))
    = (Some [], None) ->
    Notes_Add w (makeNote card (DeckName config)) = Some r ->
    AfterFetch w card config (Returned tt)
      [EvCardsGet (duplicateQuery (Word card) (DeckName config));
       EvNotesAdd (makeNote card (DeckName config));
       EvPrintln "Fatal: Failed to add card to deck."]
| Added :
    Cards_Get w (duplicateQuery (Word card) (DeckName config))
    = (Some [], None) ->
    Notes_Add w (makeNote card (DeckName config)) = None ->
    AfterFetch w card config (Returned tt)
      [EvCardsGet (duplicateQuery (Word card) (DeckName config));
       EvNotesAdd (makeNote card (DeckName config));
       EvPrintln "Done."].

(** The ways in which a run of [main] goes, by what the world answers. *)
Inductive MainRun {Title : Caser} (w : World)
  : Outcome unit -> list Event -> Prop :=
| RunHelp :
    os_Args w = [] ->
    MainRun w (Returned tt) [EvPrintln helpText]
| RunConfigFailed cfg e t0 :
    os_Args w <> [] ->
    LoadConfig w = (Returned (cfg, Some e), t0) ->
    MainRun w (Returned tt)
      (t0 ++ [EvPrintln "Fatal: Failed to open config file."])%list
| RunPingFailed config t0 r :
    os_Args w <> [] ->
    LoadConfig w = (Returned (config, None), t0) ->
    Client_Ping w = Some r ->
    MainRun w (Returned tt)
      (t0 ++ [EvPing;
              EvPrintln "Fatal: Failed to connect to Anki. Is it running? Does it have AnkiConnect?"])%list
| RunNoWord config t0 prog :
    os_Args w = [prog] ->
    LoadConfig w = (Returned (config, None), t0) ->
    Client_Ping w = None ->
    MainRun w (Panicked (IndexOutOfRange 1 1)) (t0 ++ [EvPing])%list
| RunFetchFailed prog word rest config t0 card e t :
    os_Args w = prog :: word :: rest ->
    LoadConfig w = (Returned (config, None), t0) ->
    Client_Ping w = None ->
    requestDefinition word (APIKey config) w = (Returned (card, Some e), t) ->
    MainRun w (Returned tt) (t0 ++ EvPing :: t ++ [EvPrintln fetchFatal])%list
| RunFetchPanicked prog word rest config t0 p t :
    os_Args w = prog :: word :: rest ->
    LoadConfig w = (Returned (config, None), t0) ->
    Client_Ping w = None ->
    requestDefinition word (APIKey config) w = (Panicked p, t) ->
    MainRun w (Panicked p) (t0 ++ EvPing :: t)%list
| RunFetched prog word rest config t0 card t o t' :
    os_Args w = prog :: word :: rest ->
    LoadConfig w = (Returned (config, None), t0) ->
    Client_Ping w = None ->
    requestDefinition word (APIKey config) w = (Returned (card, None), t) ->
    AfterFetch w card config o t' ->
    MainRun w o (t0 ++ EvPing :: t ++ shown card ++ t')%list.

(** A world in which the configuration file is [configJSON key deck], the
    dictionary answers [entryJSON p ds], and Anki is up, holds no card and
    takes every note. *)
Definition plainWorld (args : list string) (key deck p : string)
    (ds : list string) : World :=
  example.world args (configJSON key deck) (entryJSON p ds) [].

(** ** Proof tools *)

Ltac quiet_tac :=
  unfold quiet in *; simpl in *;
  repeat first
    [ assumption
    | apply List.Forall_app; split
    | apply List.Forall_nil
    | apply List.Forall_cons; [reflexivity |] ].

Ltac open_ex H x :=
  lazymatch type of H with
  | ex _ => destruct H as [x H]
  | _ => idtac
  end.

(** ** The scanner never runs out of fuel *)

Section Scanner.
Import json.

Lemma hexError_real (n : nat) (s : string) : hexError n s <> OutOfFuel.
Proof.
  revert s. induction n as [|n IH]; intros s; simpl; [discriminate|].
  destruct s as [|c s]; [discriminate|].
  destruct (bytes.hex_val c); [apply IH | discriminate].
Qed.

Lemma sound_prepend (s t p : string) (r : parsed string) :
  sound t r -> String.length t <= String.length s -> sound s (prepend p r).
Proof. destruct r; simpl; [lia | trivial]. Qed.

Lemma stringBody_sound_le (n : nat) :
  forall s, String.length s <= n -> sound s (stringBody s).
Proof.
  induction n as [|n IH]; intros s Hn.
  - destruct s; [simpl; discriminate | simpl in Hn; lia].
  - destruct s as [|c s]; [simpl; discriminate|].
    simpl in Hn. cbn [stringBody].
    repeat match goal with
           | |- context [match ?t with _ => _ end] =>
               lazymatch t with
               | stringBody _ => fail
               | _ => destruct t eqn:?
               end
           end;
      first
        [ discriminate
        | apply hexError_real
        | simpl; lia
        | eapply sound_prepend; [apply IH; simpl in *; lia | simpl; lia] ].
Qed.

Lemma stringBody_sound (s : string) : sound s (stringBody s).
Proof. apply (stringBody_sound_le (String.length s)). lia. Qed.


Lemma skipSpace_length (s : string) :
  String.length (skipSpace s) <= String.length s.
Proof.
  induction s as [|c s IH]; simpl; [lia|].
  destruct (isSpace c); simpl; lia.
Qed.

Lemma skipSpace_cons (s : string) (c : ascii) (r : string) :
  skipSpace s = String c r -> S (String.length r) <= String.length s.
Proof.
  intros H. pose proof (skipSpace_length s) as Hl. rewrite H in Hl. exact Hl.
Qed.

Lemma expect_sound (lit s : string) : soundLe s (expect lit s).
Proof.
  revert s. induction lit as [|c lit IH]; intros s; simpl; [lia|].
  destruct s as [|d s]; [discriminate|].
  destruct (c =? d)%char; [|discriminate].
  specialize (IH s). destruct (expect lit s); simpl in *; [lia | exact IH].
Qed.

Lemma digits_length (s : string) :
  String.length (snd (digits s)) <= String.length s.
Proof.
  induction s as [|c s IH]; simpl; [lia|].
  destruct (bytes.is_digit c); simpl; [|lia].
  destruct (digits s); simpl in *. lia.
Qed.

Lemma digits1_sound (s : string) : soundLe s (digits1 s).
Proof.
  unfold digits1. destruct s as [|c s]; [discriminate|].
  destruct (bytes.is_digit c); [|discriminate].
  pose proof (digits_length (String c s)) as H.
  destruct (digits (String c s)). exact H.
Qed.

Lemma soundLe_prepend (s t p : string) (r : parsed string) :
  soundLe t r -> String.length t <= String.length s -> soundLe s (prepend p r).
Proof. destruct r; simpl; [lia | trivial]. Qed.

Lemma exponent_sound (lit s : string) : soundLe s (exponent lit s).
Proof.
  unfold exponent. destruct s as [|c s]; [simpl; lia|].
  destruct ((c =? "e") || (c =? "E"))%char; [|simpl; lia].
  destruct s as [|d s'];
    [| destruct ((d =? "+") || (d =? "-"))%char];
    (eapply soundLe_prepend; [apply digits1_sound | simpl; lia]).
Qed.

Lemma fraction_sound (lit s : string) : soundLe s (fraction lit s).
Proof.
  unfold fraction. destruct s as [|c s]; [simpl; lia|].
  destruct (c =? ".")%char; [|apply exponent_sound].
  pose proof (digits1_sound s) as Hd.
  destruct (digits1 s) as [ds r1|e]; [|exact Hd].
  pose proof (exponent_sound (lit ++ "." ++ ds) r1) as He.
  destruct (exponent (lit ++ "." ++ ds) r1); simpl in *; [lia | exact He].
Qed.

Lemma integer_sound (s : string) : sound s (integer s).
Proof.
  unfold integer. destruct s as [|c s]; [discriminate|].
  destruct (c =? "0")%char; [simpl; lia|].
  destruct (bytes.between 49 57 c); [|discriminate].
  pose proof (digits_length s) as H. destruct (digits s). simpl in *. lia.
Qed.

Lemma number_sound (s : string) : sound s (number s).
Proof.
  unfold number.
  assert (H : forall sign t, String.length t <= String.length s ->
                sound s match integer t with
                        | Ok i r => fraction (sign ++ i) r
                        | Bad e => Bad e
                        end).
  { intros sign t Ht. pose proof (integer_sound t) as Hi.
    destruct (integer t) as [i r|e]; [|exact Hi].
    pose proof (fraction_sound (sign ++ i) r) as Hf.
    destruct (fraction (sign ++ i) r); simpl in *; [lia | exact Hf]. }
  destruct s as [|c s]; [apply H; lia|].
  destruct (c =? "-")%char; apply H; simpl; lia.
Qed.

(** What [sound] and [soundLe] say of a parser, once its result is named. *)
Ltac use_sound :=
  repeat match goal with
         | H : skipSpace _ = String _ _ |- _ => apply skipSpace_cons in H
         | H : stringBody ?s = _ |- _ =>
             let S := fresh in
             pose proof (stringBody_sound s) as S; rewrite H in S; clear H
         | H : number ?s = _ |- _ =>
             let S := fresh in
             pose proof (number_sound s) as S; rewrite H in S; clear H
         | H : expect ?l ?s = _ |- _ =>
             let S := fresh in
             pose proof (expect_sound l s) as S; rewrite H in S; clear H
         end;
  unfold sound, soundLe in *.

Ltac split_match :=
  match goal with
  | |- context [match ?t with _ => _ end] => destruct t eqn:?
  end.

(** Every value, list of elements and list of members takes at least one
    byte; and with fuel for twice the bytes of the input, the fuel is never
    what stops the three functions. *)
Lemma value_sound (fuel : nat) :
  (forall d s,
      (forall v r, value fuel d s = Ok v r ->
                   String.length r < String.length s)
      /\ (2 * String.length s + 2 <= fuel -> value fuel d s <> Bad OutOfFuel))
  /\ (forall d s,
        (forall vs r, elements fuel d s = Ok vs r ->
                      String.length r < String.length s)
        /\ (2 * String.length s + 3 <= fuel ->
            elements fuel d s <> Bad OutOfFuel))
  /\ (forall d s,
        (forall ms r, members fuel d s = Ok ms r ->
                      String.length r < String.length s)
        /\ (2 * String.length s + 3 <= fuel ->
            members fuel d s <> Bad OutOfFuel)).
Proof.
  induction fuel as [|fuel (IHv & IHe & IHm)].
  - repeat split; intros; first [discriminate | lia].
  - repeat split; [intros x r | intros Hfuel | intros x r | intros Hfuel
                   | intros x r | intros Hfuel];
      cbn [value elements members];
      repeat split_match; try discriminate;
      try (intros [= <- <-] || intros [= _ <-]);
      repeat match goal with
             | H : value fuel ?d' ?s' = Ok _ _ |- _ =>
                 apply (proj1 (IHv d' s')) in H
             | H : elements fuel ?d' ?s' = Ok _ _ |- _ =>
                 apply (proj1 (IHe d' s')) in H
             | H : members fuel ?d' ?s' = Ok _ _ |- _ =>
                 apply (proj1 (IHm d' s')) in H
             end;
      try match goal with
          | H : value fuel ?d' ?s' = Bad ?e |- Bad ?e <> _ =>
              intros [= ->]; use_sound;
              apply (proj2 (IHv d' s')); [simpl in *; lia | exact H]
          | H : elements fuel ?d' ?s' = Bad ?e |- Bad ?e <> _ =>
              intros [= ->]; use_sound;
              apply (proj2 (IHe d' s')); [simpl in *; lia | exact H]
          | H : members fuel ?d' ?s' = Bad ?e |- Bad ?e <> _ =>
              intros [= ->]; use_sound;
              apply (proj2 (IHm d' s')); [simpl in *; lia | exact H]
          | |- Bad ?e <> _ => use_sound; congruence
          end;
      use_sound; simpl in *; lia.
Qed.

Theorem parse_fuel (s : string) : parse s <> Bad OutOfFuel.
Proof. apply value_sound. lia. Qed.

End Scanner.

(** ** Running computations *)

Lemma run_bind {A B : Type} (m : M A) (f : A -> M B) (w : World) :
  (m ≫= f) w =
  match m w with
  | (Returned a, t1) => match f a w with (o, t2) => (o, (t1 ++ t2)%list) end
  | (Panicked p, t1) => (Panicked p, t1)
  end.
Proof. reflexivity. Qed.

Lemma bind_returned {A B : Type} (m : M A) (f : A -> M B) (w : World)
    (a : A) (t : list Event) :
  m w = (Returned a, t) ->
  (m ≫= f) w = (fst (f a w), (t ++ snd (f a w))%list).
Proof. intros H. rewrite run_bind, H. destruct (f a w); reflexivity. Qed.

Lemma bind_panicked {A B : Type} (m : M A) (f : A -> M B) (w : World)
    (p : Panic) (t : list Event) :
  m w = (Panicked p, t) -> (m ≫= f) w = (Panicked p, t).
Proof. intros H. rewrite run_bind, H. reflexivity. Qed.

Lemma bind_ask {A B : Type} (q : World -> A) (e : list Event) (f : A -> M B)
    (w : World) :
  (ask q e ≫= f) w = (fst (f (q w) w), (e ++ snd (f (q w) w))%list).
Proof. apply bind_returned. reflexivity. Qed.

(** ** Traces *)

Lemma quiet_not_In (t : list Event) (e : Event) :
  quiet t -> isAnki e = true -> ~ In e t.
Proof.
  intros Hq He Hin. unfold quiet in Hq. rewrite List.Forall_forall in Hq.
  specialize (Hq e Hin). congruence.
Qed.

Lemma endsWithPrintln_one (line : string) : endsWithPrintln [EvPrintln line].
Proof. now exists [], line. Qed.

Lemma endsWithPrintln_cons (e : Event) (t : list Event) :
  endsWithPrintln t -> endsWithPrintln (e :: t).
Proof. intros (pre & line & ->). now exists (e :: pre), line. Qed.

Lemma endsWithPrintln_app (t1 t2 : list Event) :
  endsWithPrintln t2 -> endsWithPrintln (t1 ++ t2)%list.
Proof.
  intros (pre & line & ->). exists (t1 ++ pre)%list, line. apply app_assoc.
Qed.

Ltac ends_tac :=
  simpl;
  repeat first
    [ apply endsWithPrintln_one
    | apply endsWithPrintln_cons
    | apply endsWithPrintln_app ].

Lemma count_append (c : ascii) (s t : string) :
  bytes.count c (s ++ t) = bytes.count c s + bytes.count c t.
Proof. induction s as [|d s IH]; simpl; [reflexivity | rewrite IH; lia]. Qed.

(** ** The configuration loader *)

Section ConfigLoader.
Import json unmarshal.

Lemma LoadConfig_quiet (w : World) : quiet (snd (LoadConfig w)).
Proof.
  unfold LoadConfig. rewrite run_bind. unfold os.UserHomeDir, ask.
  destruct (os_UserHomeDir w) as [home|e]; [|quiet_tac].
  rewrite run_bind. unfold os.Open, ask.
  destruct (os_Open w (configPath home)) as [f|e]; [|quiet_tac].
  destruct (Decode storeConfig f Config_zero) as [cfg [e|]]; quiet_tac.
Qed.

(** Decoding the members of a well-typed object never fails, and leaves
    alone the fields that no member names. *)
Lemma object_Config (ms : list (string * Value)) (cur : Config) :
  wellTyped ms ->
  exists cfg,
    object ConfigFields storeConfigField ms cur = (cfg, None)
    /\ (missing FAPIKey ms -> APIKey cfg = APIKey cur)
    /\ (missing FDeckName ms -> DeckName cfg = DeckName cur).
Proof.
  unfold object. revert cur.
  induction ms as [|[k v] ms IH]; intros cur Hty.
  - exists cur. simpl. auto.
  - assert (Hty' : wellTyped ms).
    { intros k' v' Hin. apply (Hty k' v'). now right. }
    assert (Hmiss : forall f, missing f ((k, v) :: ms) ->
                     lookupField ConfigFields k <> Some f /\ missing f ms).
    { intros f Hm. split; [apply (Hm k v); now left |].
      intros k' v' Hin. apply (Hm k' v'). now right. }
    simpl fold_left. simpl fst. simpl snd.
    destruct (lookupField ConfigFields k) as [f|] eqn:Hk.
    + assert (Hv : stringOrNull v = true).
      { apply (Hty k v); [now left | rewrite Hk; discriminate]. }
      destruct f, v; try discriminate Hv; simpl;
        match goal with
        | |- context [fold_left _ ms (?c, None)] =>
            destruct (IH c Hty') as (cfg & -> & Ha & Hd)
        end;
        exists cfg; (split; [reflexivity|]);
        (split; intros Hm; destruct (Hmiss _ Hm) as [Hne Hm'];
         try congruence; auto).
    + destruct (IH cur Hty') as (cfg & -> & Ha & Hd).
      exists cfg. split; [reflexivity|].
      split; intros Hm; destruct (Hmiss _ Hm) as [_ Hm']; auto.
Qed.

(** C7, as amended. When the first JSON value of the configuration file
    is an object whose members named [apiKey] or [deckName] (up to case)
    all hold a string or [null], [LoadConfig] returns no error, and a
    field that no member names is the empty string: there is no default
    value. *)
Theorem LoadConfig_missing_field (w : World) (home : string) (f : Reader)
    (ms : list (string * Value)) (rest : string) :
  os_UserHomeDir w = inl home ->
  os_Open w (configPath home) = inl f ->
  parse (data f) = Ok (JObject ms) rest ->
  wellTyped ms ->
  exists cfg,
    fst (LoadConfig w) = Returned (cfg, None)
    /\ (missing FAPIKey ms -> APIKey cfg = "")
    /\ (missing FDeckName ms -> DeckName cfg = "").
Proof.
  intros Hhome Hopen Hparse Hty.
  destruct (object_Config ms Config_zero Hty) as (cfg & Hobj & Ha & Hd).
  exists cfg. split; [| split; assumption].
  unfold LoadConfig. rewrite run_bind. unfold os.UserHomeDir, ask.
  rewrite Hhome, run_bind. unfold os.Open, ask. rewrite Hopen.
  unfold Decode. rewrite Hparse. simpl. rewrite Hobj. reflexivity.
Qed.

End ConfigLoader.

(** ** The definition fetcher *)

Section Fetcher.
Import json unmarshal.

Lemma parseResponse_decoded (body : Reader) (w : World) (c : Card)
    (cs : list Card) :
  fault body = None ->
  Unmarshal storeCards (data body) [] = (c :: cs, None) ->
  parseResponse body w = (Returned (c, None), []).
Proof.
  intros Hf Hu. unfold parseResponse, io_ReadAll. rewrite Hf, Hu. reflexivity.
Qed.

Lemma parseResponse_undecoded (body : Reader) (w : World) (cs : list Card)
    (e : error) :
  fault body = None ->
  Unmarshal storeCards (data body) [] = (cs, Some e) ->
  parseResponse body w
  = (Returned (Card_zero, Some e),
     [EvPrintln "Error: Failed to parse response body JSON."]).
Proof.
  intros Hf Hu. unfold parseResponse, io_ReadAll. rewrite Hf, Hu. reflexivity.
Qed.

Lemma parseResponse_unread (body : Reader) (w : World) (e : error) :
  fault body = Some e ->
  parseResponse body w
  = (Returned (Card_zero, Some e),
     [EvPrintln "Error: Failed to read response body."]).
Proof.
  intros Hf. unfold parseResponse, io_ReadAll. rewrite Hf. reflexivity.
Qed.

Lemma parseResponse_quiet (body : Reader) (w : World) :
  quiet (snd (parseResponse body w)).
Proof.
  unfold parseResponse, io_ReadAll.
  destruct (fault body); [quiet_tac|].
  destruct (Unmarshal storeCards (data body) []) as [[|c cs] [e|]]; quiet_tac.
Qed.

(** [requestDefinition] after a successful GET, by what [parseResponse]
    makes of the body. *)
Lemma requestDefinition_got (w : World) (word key : string)
    (resp : http.Response) :
  http_Get w (definitionURL word key) = inl resp ->
  requestDefinition word key w =
  match parseResponse (http.Body resp) w with
  | (Returned (card, Some e), t) =>
      (Returned (Card_zero, Some e),
       (EvHttpGet (definitionURL word key)
          :: t ++ [EvPrintln "Error: Failed to parse response"])%list)
  | (Returned (card, None), t) =>
      (Returned ({| Word := word; PartOfSpeech := PartOfSpeech card;
                    Definitions := Definitions card |}, None),
       (EvHttpGet (definitionURL word key) :: t ++ [])%list)
  | (Panicked p, t) => (Panicked p, EvHttpGet (definitionURL word key) :: t)
  end.
Proof.
  intros Hget. unfold requestDefinition. rewrite run_bind.
  unfold client.Get, ask. rewrite Hget, run_bind.
  destruct (parseResponse (http.Body resp) w) as [[[card [e|]]|p] t];
    reflexivity.
Qed.

Lemma requestDefinition_quiet (word key : string) (w : World) :
  quiet (snd (requestDefinition word key w)).
Proof.
  unfold requestDefinition. rewrite run_bind. unfold client.Get, ask.
  destruct (http_Get w (definitionURL word key)) as [resp|e]; [|quiet_tac].
  rewrite run_bind. pose proof (parseResponse_quiet (http.Body resp) w) as Hq.
  destruct (parseResponse (http.Body resp) w) as [[[card [e|]]|p] t];
    quiet_tac.
Qed.

(** C1. When the body of the answer is read to its end and is an empty
    JSON array, [parseResponse] takes [cards[0]] all the same: it panics
    with an index out of range, prints nothing and returns no error; so
    [requestDefinition] panics too, after its GET, instead of returning an
    error. *)
Theorem parseResponse_empty_array_panics (w : World) (word key : string)
    (resp : http.Response) :
  http_Get w (definitionURL word key) = inl resp ->
  fault (http.Body resp) = None ->
  checkValid (data (http.Body resp)) = inl (JArray []) ->
  parseResponse (http.Body resp) w = (Panicked (IndexOutOfRange 0 0), [])
  /\ requestDefinition word key w
     = (Panicked (IndexOutOfRange 0 0), [EvHttpGet (definitionURL word key)]).
Proof.
  intros Hget Hfault Hvalid.
  assert (Hp : parseResponse (http.Body resp) w
               = (Panicked (IndexOutOfRange 0 0), [])).
  { unfold parseResponse, io_ReadAll, Unmarshal.
    rewrite Hfault, Hvalid. reflexivity. }
  split; [exact Hp|].
  rewrite (requestDefinition_got _ _ _ _ Hget), Hp. reflexivity.
Qed.

(** C2. When the body of the answer is a JSON array that is not empty:
    if every element decodes as a [Card], [requestDefinition] returns a
    card without error; whenever it returns a card without error, the
    word of the card is the argument [word], whatever the answer says, and
    its part of speech and definitions are those decoded from the first
    element of the array; and if an element does not decode as a [Card],
    it returns the zero card, whose word is empty, with the error of the
    decoding, after the two lines of a failed decoding. *)
Theorem requestDefinition_word_is_input (w : World) (word key : string)
    (resp : http.Response) (v : Value) (vs : list Value) :
  http_Get w (definitionURL word key) = inl resp ->
  fault (http.Body resp) = None ->
  checkValid (data (http.Body resp)) = inl (JArray (v :: vs)) ->
  let first := fst (storeCard Card_zero v) in
  (snd (storeCardElems (v :: vs)) = None ->
   requestDefinition word key w
   = (Returned ({| Word := word; PartOfSpeech := PartOfSpeech first;
                   Definitions := Definitions first |}, None),
      [EvHttpGet (definitionURL word key)]))
  /\ (forall card tr,
        requestDefinition word key w = (Returned (card, None), tr) ->
        Word card = word
        /\ PartOfSpeech card = PartOfSpeech first
        /\ Definitions card = Definitions first)
  /\ (forall e,
        snd (storeCardElems (v :: vs)) = Some e ->
        requestDefinition word key w
        = (Returned (Card_zero, Some e),
           [EvHttpGet (definitionURL word key);
            EvPrintln "Error: Failed to parse response body JSON.";
            EvPrintln "Error: Failed to parse response"])).
Proof.
  intros Hget Hfault Hvalid first.
  assert (Hu : Unmarshal storeCards (data (http.Body resp)) []
               = (first :: fst (storeCardElems vs),
                  snd (storeCardElems (v :: vs)))).
  { unfold Unmarshal. rewrite Hvalid. unfold first. simpl.
    destruct (storeCard Card_zero v) as [c e1].
    destruct (storeCardElems vs) as [cs e2]. reflexivity. }
  rewrite (requestDefinition_got _ _ _ _ Hget).
  destruct (snd (storeCardElems (v :: vs))) as [e|] eqn:He.
  - rewrite (parseResponse_undecoded _ _ _ _ Hfault Hu).
    split; [discriminate | split].
    + intros card tr H. discriminate.
    + intros e' [= <-]. reflexivity.
  - rewrite (parseResponse_decoded _ _ _ _ Hfault Hu).
    split; [reflexivity | split].
    + intros card tr H. injection H as <- _. repeat split.
    + discriminate.
Qed.

(** What "decoded from the first element" gives on the shape that the
    dictionary documents: the text of [fl] and the texts of [shortdef]. *)
Lemma storeStrings_strings (ds old : list string) :
  storeStrings old (map JString ds)
  = ((ds ++ skipn (length ds) old)%list, None).
Proof.
  revert old. induction ds as [|d ds IH]; intros old; simpl.
  - reflexivity.
  - rewrite IH. destruct old; simpl; [rewrite skipn_nil|]; reflexivity.
Qed.

Lemma storeCard_fl_shortdef (p : string) (ds : list string) :
  storeCard Card_zero
    (JObject [("fl", JString p); ("shortdef", JArray (map JString ds))])
  = ({| Word := ""; PartOfSpeech := p; Definitions := slice_of ds |}, None).
Proof.
  destruct ds as [|d ds]; [reflexivity|].
  cbn -[storeStrings map]. simpl map.
  change (JString d :: map JString ds) with (map JString (d :: ds)).
  rewrite storeStrings_strings. simpl. unfold slice_of. simpl.
  rewrite length_map, app_nil_r. reflexivity.
Qed.

(** The three ways in which [requestDefinition] returns an error. *)
Lemma requestDefinition_failing (w : World) (word key : string) (st : Stage)
    (e : error) :
  failingStage w word key = Some (st, e) ->
  requestDefinition word key w
  = (Returned (Card_zero, Some e),
     EvHttpGet (definitionURL word key) :: map EvPrintln (diagnostic st)).
Proof.
  unfold failingStage.
  destruct (http_Get w (definitionURL word key)) as [resp|e0] eqn:Hget.
  - rewrite (requestDefinition_got _ _ _ _ Hget).
    destruct (fault (http.Body resp)) as [e1|] eqn:Hfault.
    + intros [= <- <-]. rewrite (parseResponse_unread _ _ _ Hfault).
      reflexivity.
    + destruct (Unmarshal storeCards (data (http.Body resp)) [])
        as [cs [e2|]] eqn:Hu; simpl; [|discriminate].
      intros [= <- <-]. rewrite (parseResponse_undecoded _ _ _ _ Hfault Hu).
      reflexivity.
  - intros [= <- <-]. unfold requestDefinition. rewrite run_bind.
    unfold client.Get, ask. rewrite Hget. reflexivity.
Qed.

Lemma requestDefinition_no_failing (w : World) (word key : string) :
  failingStage w word key = None ->
  forall card e tr,
    requestDefinition word key w <> (Returned (card, Some e), tr).
Proof.
  unfold failingStage.
  destruct (http_Get w (definitionURL word key)) as [resp|e0] eqn:Hget;
    [|discriminate].
  destruct (fault (http.Body resp)) as [e1|] eqn:Hfault; [discriminate|].
  destruct (Unmarshal storeCards (data (http.Body resp)) [])
    as [cs [e2|]] eqn:Hu; simpl; [discriminate|].
  intros _ card e tr. rewrite (requestDefinition_got _ _ _ _ Hget).
  unfold parseResponse, io_ReadAll. rewrite Hfault, Hu.
  destruct cs; discriminate.
Qed.

Lemma diagnostic_injective (st1 st2 : Stage) :
  diagnostic st1 = diagnostic st2 -> st1 = st2.
Proof. destruct st1, st2; first [reflexivity | discriminate]. Qed.

End Fetcher.

(** ** The flashcard client *)

(** C4. When the search of the endpoint succeeds with a set of cards,
    [checkDeckForDuplicate] returns [true] exactly when the set is not
    empty and [false] exactly when it is empty, without error; when the
    search fails, it returns [false] and the one error
    [AnkiConnect error.]. *)
Theorem checkDeckForDuplicate_result (w : World) (word deck : string) :
  let query := duplicateQuery word deck in
  (forall cs, Cards_Get w query = (Some cs, None) ->
     exists b : bool,
       checkDeckForDuplicate word deck w
         = (Returned (b, None), [EvCardsGet query])
       /\ (b = true <-> cs <> [])
       /\ (b = false <-> cs = []))
  /\ (forall p e, Cards_Get w query = (p, Some e) ->
        checkDeckForDuplicate word deck w
          = (Returned (false, Some (errors_New "AnkiConnect error.")),
             [EvCardsGet query])).
Proof.
  intros query. split.
  - intros cs H. unfold checkDeckForDuplicate. rewrite run_bind.
    unfold client.CardsGet, ask. fold query. rewrite H.
    destruct cs as [|c cs]; simpl.
    + exists false. repeat split; congruence.
    + exists true. repeat split; congruence.
  - intros p e H. unfold checkDeckForDuplicate. rewrite run_bind.
    unfold client.CardsGet, ask. fold query. rewrite H. reflexivity.
Qed.

(** Without a double quote in the deck names and in the words, the query
    tells the deck name and the word. *)
Lemma split_at_quote (s1 s2 t1 t2 : string) :
  bytes.count bytes.dquote s1 = 0 ->
  bytes.count bytes.dquote s2 = 0 ->
  s1 ++ String bytes.dquote t1 = s2 ++ String bytes.dquote t2 ->
  s1 = s2 /\ t1 = t2.
Proof.
  assert (Hq : forall s, bytes.count bytes.dquote (String bytes.dquote s) <> 0).
  { intros s. cbn [bytes.count]. rewrite Ascii.eqb_refl. discriminate. }
  revert s2. induction s1 as [|c s1 IH]; intros [|d s2].
  - intros _ _ [= ->]. split; reflexivity.
  - intros _ H [= <- _]. now apply Hq in H.
  - intros H _ [= -> _]. now apply Hq in H.
  - intros H1 H2 [= -> H]. cbn [bytes.count] in H1, H2.
    destruct (IH s2) as [-> ->]; try assumption; try lia.
    split; reflexivity.
Qed.

Lemma duplicateQuery_injective (word1 deck1 word2 deck2 : string) :
  bytes.count bytes.dquote deck1 = 0 ->
  bytes.count bytes.dquote deck2 = 0 ->
  bytes.count bytes.dquote word1 = 0 ->
  bytes.count bytes.dquote word2 = 0 ->
  duplicateQuery word1 deck1 = duplicateQuery word2 deck2 ->
  word1 = word2 /\ deck1 = deck2.
Proof.
  intros Hd1 Hd2 Hw1 Hw2 H. unfold duplicateQuery, quote, bytes.str in H.
  simpl in H. injection H as H.
  apply split_at_quote in H as [-> H]; try assumption.
  simpl in H. injection H as H.
  apply split_at_quote in H as [-> _]; try assumption.
  split; reflexivity.
Qed.

(** C10. The search expression that [checkDeckForDuplicate] sends is the
    deck name and the word spliced as they are between literal double
    quotes: every double quote of the two texts reaches the query, four
    more frame them, and so two different pairs of a word and a deck name
    can send the same query. *)
Theorem duplicateQuery_verbatim (w : World) (word deck : string) :
  let query :=
    quote ++ "deck:" ++ deck ++ quote ++ " "
      ++ quote ++ "front:" ++ word ++ quote in
  snd (checkDeckForDuplicate word deck w) = [EvCardsGet query]
  /\ bytes.count bytes.dquote query
     = 4 + bytes.count bytes.dquote deck + bytes.count bytes.dquote word
  /\ (duplicateQuery ("b" ++ quote ++ " " ++ quote ++ "front:c") "a"
      = duplicateQuery "c" ("a" ++ quote ++ " " ++ quote ++ "front:b")
      /\ "a" <> "a" ++ quote ++ " " ++ quote ++ "front:b").
Proof.
  intros query. split; [|split; [|split; [|discriminate]]].
  - unfold checkDeckForDuplicate. rewrite run_bind. unfold client.CardsGet, ask.
    change (duplicateQuery word deck) with query.
    destruct (Cards_Get w query) as [[cs|] [e|]]; try reflexivity.
    destruct cs; reflexivity.
  - unfold query. rewrite !count_append. simpl. lia.
  - reflexivity.
Qed.

(** C3. The note that [addCardToDeck] submits, and nothing else, goes to
    the endpoint: it is for the given deck, of the note type [Basic], and
    has the two fields [Front], the word in title case, and [Back], the
    part of speech, two line breaks and the definitions joined by one line
    break. For the word run, a verb, to move fast, and the deck English:
    Front is Run and Back is [verb<br><br>to move fast]. *)
Theorem addCardToDeck_note (Title : Caser) (card : Card) (deck : string)
    (w : World) :
  let note := makeNote card deck in
  snd (addCardToDeck card deck w) = [EvNotesAdd note]
  /\ (ankiconnect.DeckName note = deck
      /\ ankiconnect.ModelName note = "Basic"
      /\ dom (ankiconnect.Fields note) = ({[ "Front"; "Back" ]} : gset string)
      /\ size (ankiconnect.Fields note) = 2
      /\ ankiconnect.Fields note !! "Front" = Some (Caser_String (Word card))
      /\ ankiconnect.Fields note !! "Back"
         = Some (PartOfSpeech card ++ "<br><br>"
                   ++ String.concat "<br>" (elems (Definitions card))))
  /\ (let run := @makeNote asciiTitle example.runCard "English" in
      ankiconnect.DeckName run = "English"
      /\ ankiconnect.Fields run !! "Front" = Some "Run"
      /\ ankiconnect.Fields run !! "Back" = Some "verb<br><br>to move fast").
Proof.
  intros note. split; [|split].
  - unfold addCardToDeck. rewrite run_bind. unfold client.NotesAdd, ask.
    fold note. destruct (Notes_Add w note); reflexivity.
  - repeat split.
  - repeat split.
Qed.

(** ** The orchestrator *)

Section Orchestrator.
Context {Title : Caser}.

(** [main] stops before it searches the deck, or it reaches
    [addUnlessDuplicate] with a trace that is quiet so far. *)
Lemma main_split (w : World) :
  quiet (snd (main w))
  \/ exists pre card config,
       quiet pre
       /\ main w = (fst (addUnlessDuplicate card config w),
                    (pre ++ snd (addUnlessDuplicate card config w))%list).
Proof.
  unfold main, os.Args. rewrite bind_ask. cbv beta iota.
  destruct (length (os_Args w) =? 0)%nat; [left; quiet_tac|].
  pose proof (LoadConfig_quiet w) as HL.
  destruct (LoadConfig w) as [[[config [e|]]|p] t0] eqn:HLoad;
    [ rewrite (bind_returned _ _ _ _ _ HLoad); left; quiet_tac
    | rewrite (bind_returned _ _ _ _ _ HLoad); cbv beta iota
    | rewrite (bind_panicked _ _ _ _ _ HLoad); left; quiet_tac ].
  unfold client.Ping. rewrite bind_ask. cbv beta iota.
  destruct (Client_Ping w); [left; quiet_tac|].
  unfold elemAt.
  destruct (nth_error (os_Args w) 1) as [word|];
    [| left; quiet_tac].
  rewrite (bind_returned _ _ _ word [] eq_refl). cbv beta iota.
  pose proof (requestDefinition_quiet word (APIKey config) w) as HR.
  destruct (requestDefinition word (APIKey config) w)
    as [[[card [e|]]|p] t2] eqn:HReq;
    [ rewrite (bind_returned _ _ _ _ _ HReq); left; quiet_tac
    | rewrite (bind_returned _ _ _ _ _ HReq); cbv beta iota
    | rewrite (bind_panicked _ _ _ _ _ HReq); left; quiet_tac ].
  right. unfold println. rewrite !bind_ask.
  exists (t0 ++ EvPing :: t2
             ++ [EvPrintln (Word card); EvPrintln (PartOfSpeech card);
                 EvPrintln (String.concat newline
                              (elems (Definitions card)))])%list,
    card, config.
  split; [quiet_tac|].
  simpl. f_equal. rewrite <- !app_assoc. simpl. rewrite <- !app_assoc.
  reflexivity.
Qed.

(** The four ways in which the run ends after the card was fetched. *)
Lemma addUnlessDuplicate_cases (card : Card) (config : Config) (w : World) :
  let q := duplicateQuery (Word card) (DeckName config) in
  match Cards_Get w q with
  | (_, Some _) =>
      addUnlessDuplicate card config w
      = (Returned tt,
         [EvCardsGet q;
          EvPrintln "Fatal: Failed to query deck for duplicates."])
  | (None, None) =>
      addUnlessDuplicate card config w
      = (Panicked NilDereference, [EvCardsGet q])
  | (Some (_ :: _), None) =>
      addUnlessDuplicate card config w
      = (Returned tt,
         [EvCardsGet q; EvPrintln "Duplicate detected, omitting."])
  | (Some [], None) =>
      exists line,
        addUnlessDuplicate card config w
        = (Returned tt,
           [EvCardsGet q; EvNotesAdd (makeNote card (DeckName config));
            EvPrintln line])
  end.
Proof.
  intros q. unfold addUnlessDuplicate, checkDeckForDuplicate, client.CardsGet.
  fold q. rewrite !run_bind. unfold ask.
  destruct (Cards_Get w q) as [[[|c cs]|] [e|]]; try reflexivity.
  unfold addCardToDeck, client.NotesAdd. simpl. rewrite !run_bind. unfold ask.
  destruct (Notes_Add w (makeNote card (DeckName config)));
    eexists; reflexivity.
Qed.

(** C5. In a run whose duplicate search succeeds with a set of cards that
    is not empty, [main] returns, the exit status is that of a success,
    the last thing the run does is to print
    [Duplicate detected, omitting.] right after the search, and it never
    calls the note-add operation. And in any run, a call of the note-add
    operation comes after a duplicate check that returned [false] without
    error. *)
Theorem main_duplicate_omitted (w : World) :
  (forall q cs,
      In (EvCardsGet q) (snd (main w)) ->
      Cards_Get w q = (Some cs, None) -> cs <> [] ->
      fst (main w) = Returned tt
      /\ exitStatus w = 0%Z
      /\ (exists pre,
            snd (main w)
            = (pre ++ [EvCardsGet q;
                       EvPrintln "Duplicate detected, omitting."])%list)
      /\ (forall n, ~ In (EvNotesAdd n) (snd (main w))))
  /\ (forall n,
        In (EvNotesAdd n) (snd (main w)) ->
        exists word deck pre post,
          snd (main w)
          = (pre ++ EvCardsGet (duplicateQuery word deck) :: post)%list
          /\ In (EvNotesAdd n) post
          /\ checkDeckForDuplicate word deck w
             = (Returned (false, None),
                [EvCardsGet (duplicateQuery word deck)])).
Proof.
  destruct (main_split w) as [Hq | (pre & card & config & Hpre & Hmain)].
  - split.
    + intros q cs Hin. exfalso. now apply (quiet_not_In _ _ Hq) in Hin.
    + intros n Hin. exfalso. now apply (quiet_not_In _ _ Hq) in Hin.
  - rewrite Hmain. simpl fst. simpl snd.
    pose proof (addUnlessDuplicate_cases card config w) as Hc.
    set (q0 := duplicateQuery (Word card) (DeckName config)) in *.
    cbv zeta in Hc.
    assert (Hnot : forall e, isAnki e = true -> ~ In e pre).
    { intros e He. now apply quiet_not_In. }
    split.
    + intros q cs Hin Hget Hne.
      assert (q = q0) as ->.
      { apply in_app_or in Hin. destruct Hin as [Hin | Hin].
        - now apply Hnot in Hin.
        - destruct (Cards_Get w q0) as [[[|c cs']|] [e|]];
            open_ex Hc line; rewrite Hc in Hin; simpl in Hin;
            intuition congruence. }
      rewrite Hget in Hc. destruct cs as [|c cs]; [congruence|].
      rewrite Hc. simpl. split; [reflexivity|].
      split; [unfold exitStatus; rewrite Hmain, Hc; reflexivity|].
      split; [now exists pre|].
      intros n Hn. apply in_app_or in Hn. destruct Hn as [Hn | Hn].
      * now apply Hnot in Hn.
      * simpl in Hn. intuition congruence.
    + intros n Hin. apply in_app_or in Hin. destruct Hin as [Hin | Hin].
      { now apply Hnot in Hin. }
      destruct (Cards_Get w q0) as [[[|c cs']|] [e|]] eqn:Hget;
        open_ex Hc line; rewrite Hc in Hin; simpl in Hin;
        try (exfalso; intuition congruence).
      exists (Word card), (DeckName config), pre,
        [EvNotesAdd (makeNote card (DeckName config)); EvPrintln line].
      rewrite Hc. simpl. fold q0. split; [reflexivity|]. split.
      * destruct Hin as [Hin | [Hin | [Hin | []]]]; try discriminate.
        now left.
      * unfold checkDeckForDuplicate, client.CardsGet. fold q0.
        rewrite run_bind. unfold ask. rewrite Hget. reflexivity.
Qed.

(** Every run in which [main] returns ends with a printed line and with
    the exit status [0]. *)
Lemma main_returns_after_message (w : World) :
  fst (main w) = Returned tt ->
  exitStatus w = 0%Z /\ endsWithPrintln (snd (main w)).
Proof.
  intros Hret. split; [unfold exitStatus; now rewrite Hret|].
  revert Hret.
  unfold main, os.Args. rewrite bind_ask. cbv beta iota.
  destruct (length (os_Args w) =? 0)%nat; [intros _; ends_tac|].
  destruct (LoadConfig w) as [[[config [e|]]|p] t0] eqn:HLoad;
    [ rewrite (bind_returned _ _ _ _ _ HLoad); intros _; ends_tac
    | rewrite (bind_returned _ _ _ _ _ HLoad); cbv beta iota
    | rewrite (bind_panicked _ _ _ _ _ HLoad); discriminate ].
  unfold client.Ping. rewrite bind_ask. cbv beta iota.
  destruct (Client_Ping w); [intros _; ends_tac|].
  unfold elemAt.
  destruct (nth_error (os_Args w) 1) as [word|]; [|discriminate].
  rewrite (bind_returned _ _ _ word [] eq_refl). cbv beta iota.
  destruct (requestDefinition word (APIKey config) w)
    as [[[card [e|]]|p] t2] eqn:HReq;
    [ rewrite (bind_returned _ _ _ _ _ HReq); intros _; ends_tac
    | rewrite (bind_returned _ _ _ _ _ HReq); cbv beta iota
    | rewrite (bind_panicked _ _ _ _ _ HReq); discriminate ].
  unfold println. rewrite !bind_ask. fold (println).
  change (mbind _ (checkDeckForDuplicate (Word card) (DeckName config)))
    with (addUnlessDuplicate card config).
  pose proof (addUnlessDuplicate_cases card config w) as Hc. cbv zeta in Hc.
  set (q0 := duplicateQuery (Word card) (DeckName config)) in *.
  destruct (Cards_Get w q0) as [[[|c cs']|] [e|]];
    open_ex Hc line; rewrite Hc; try discriminate; intros _; ends_tac.
Qed.

(** [main] when the fetch of the definition returns an error. *)
Lemma main_fetch_error (w : World) (prog word : string) (rest : list string)
    (config : Config) (t0 t : list Event) (card : Card) (e : error) :
  os_Args w = prog :: word :: rest ->
  LoadConfig w = (Returned (config, None), t0) ->
  Client_Ping w = None ->
  requestDefinition word (APIKey config) w = (Returned (card, Some e), t) ->
  main w = (Returned tt, (t0 ++ EvPing :: t ++ [EvPrintln fetchFatal])%list).
Proof.
  intros Hargs HLoad Hping HReq.
  unfold main, os.Args. rewrite bind_ask. cbv beta iota.
  rewrite Hargs.
  change (length (prog :: word :: rest) =? 0)%nat with false. cbv iota.
  rewrite (bind_returned _ _ _ _ _ HLoad). cbv beta iota.
  unfold client.Ping. rewrite bind_ask. cbv beta iota. rewrite Hping.
  unfold elemAt. simpl nth_error.
  rewrite (bind_returned _ _ _ word [] eq_refl). cbv beta iota.
  rewrite (bind_returned _ _ _ _ _ HReq). reflexivity.
Qed.

(** C8. [requestDefinition] returns an error exactly when one of its
    three stages fails: the GET, the reading of the body, the decoding of
    the body as an array of cards. It then returns the zero card and the
    error of the stage, after printing the lines of that stage, which
    differ from one stage to another; and [main], which called it, prints
    the same one line for each of them and returns. *)
Theorem requestDefinition_errors (w : World) (word key : string) :
  (forall st e,
      failingStage w word key = Some (st, e) ->
      requestDefinition word key w
      = (Returned (Card_zero, Some e),
         EvHttpGet (definitionURL word key) :: map EvPrintln (diagnostic st)))
  /\ (failingStage w word key = None ->
      forall card e tr,
        requestDefinition word key w <> (Returned (card, Some e), tr))
  /\ (forall st1 st2, diagnostic st1 = diagnostic st2 -> st1 = st2)
  /\ (forall st e prog rest config t0,
        failingStage w word key = Some (st, e) ->
        os_Args w = prog :: word :: rest ->
        LoadConfig w = (Returned (config, None), t0) ->
        APIKey config = key ->
        Client_Ping w = None ->
        main w
        = (Returned tt,
           (t0 ++ EvPing :: EvHttpGet (definitionURL word key)
               :: map EvPrintln (diagnostic st)
               ++ [EvPrintln fetchFatal])%list)).
Proof.
  split; [|split; [|split]].
  - intros st e. apply requestDefinition_failing.
  - apply requestDefinition_no_failing.
  - apply diagnostic_injective.
  - intros st e prog rest config t0 Hst Hargs HLoad <- Hping.
    apply (main_fetch_error w prog word rest config t0
             (EvHttpGet (definitionURL word (APIKey config))
                :: map EvPrintln (diagnostic st)) Card_zero e);
      try assumption.
    now apply requestDefinition_failing.
Qed.

End Orchestrator.

(** ** The properties on concrete runs *)

Section Runs.
Import json unmarshal example.

(** The run of the specification: the word run, an empty deck. *)
Example main_run_done :
  @main asciiTitle (world ["dict2anki"; "run"] configText runText [])
  = (Returned tt,
     [EvUserHomeDir; EvOpen (configPath home); EvClose (configPath home);
      EvPing; EvHttpGet (definitionURL "run" "K");
      EvPrintln "run"; EvPrintln "verb"; EvPrintln "to move fast";
      EvCardsGet (duplicateQuery "run" "English");
      EvNotesAdd (@makeNote asciiTitle runCard "English");
      EvPrintln "Done."]).
Proof. vm_compute. reflexivity. Qed.

Lemma parseResponse_empty_array_panics_witness :
  parseResponse (file arrayText)
    (world ["dict2anki"; "run"] configText arrayText [])
  = (Panicked (IndexOutOfRange 0 0), [])
  /\ requestDefinition "run" "K"
       (world ["dict2anki"; "run"] configText arrayText [])
     = (Panicked (IndexOutOfRange 0 0), [EvHttpGet (definitionURL "run" "K")]).
Proof.
  apply (parseResponse_empty_array_panics
           (world ["dict2anki"; "run"] configText arrayText [])
           "run" "K" {| http.Body := file arrayText |});
    vm_compute; reflexivity.
Defined.

Lemma requestDefinition_word_is_input_witness :
  requestDefinition "run" "K"
    (world ["dict2anki"; "run"] configText walkText [])
  = (Returned (runCard, None), [EvHttpGet (definitionURL "run" "K")]).
Proof.
  apply (proj1 (requestDefinition_word_is_input
           (world ["dict2anki"; "run"] configText walkText [])
           "run" "K" {| http.Body := file walkText |}
           (JObject [("Word", JString "walk"); ("fl", JString "verb");
                     ("shortdef", JArray [JString "to move fast"])])
           [JObject [("fl", JString "noun")]]
           eq_refl eq_refl eq_refl));
    vm_compute; reflexivity.
Defined.

(** C2 as stated fails. An answer that is a well-formed JSON array, not
    empty, of words (what the dictionary sends for a word that it does not
    know) makes [requestDefinition] return the zero card with an error:
    the word of the card returned is empty, it is not the argument. *)
Lemma requestDefinition_word_lost :
  checkValid suggestionText = inl (JArray [JString "tide"])
  /\ requestDefinition "tyde" "K"
       (world ["dict2anki"; "tyde"] configText suggestionText [])
     = (Returned (Card_zero,
                  Some (UnmarshalTypeError "string" "main.Card")),
        [EvHttpGet (definitionURL "tyde" "K");
         EvPrintln "Error: Failed to parse response body JSON.";
         EvPrintln "Error: Failed to parse response"])
  /\ Word Card_zero = ""
  /\ Word Card_zero <> "tyde".
Proof.
  repeat split; try (vm_compute; reflexivity). vm_compute. discriminate.
Qed.

Lemma checkDeckForDuplicate_result_witness :
  (exists b : bool,
      checkDeckForDuplicate "run" "English"
        (world ["dict2anki"; "run"] configText runText [oneCard])
      = (Returned (b, None), [EvCardsGet (duplicateQuery "run" "English")])
      /\ (b = true <-> [oneCard] <> [])
      /\ (b = false <-> [oneCard] = []))
  /\ checkDeckForDuplicate "run" "English"
       (worldWithSearch (None, Some refused))
     = (Returned (false, Some (errors_New "AnkiConnect error.")),
        [EvCardsGet (duplicateQuery "run" "English")]).
Proof.
  split.
  - apply (proj1 (checkDeckForDuplicate_result
             (world ["dict2anki"; "run"] configText runText [oneCard])
             "run" "English")).
    reflexivity.
  - apply (proj2 (checkDeckForDuplicate_result
             (worldWithSearch (None, Some refused)) "run" "English")
             None refused).
    reflexivity.
Defined.

Lemma main_duplicate_omitted_witness :
  (fst (@main asciiTitle
          (world ["dict2anki"; "run"] configText runText [oneCard]))
   = Returned tt
   /\ @exitStatus asciiTitle
        (world ["dict2anki"; "run"] configText runText [oneCard]) = 0%Z
   /\ (exists pre,
         snd (@main asciiTitle
                (world ["dict2anki"; "run"] configText runText [oneCard]))
         = (pre ++ [EvCardsGet (duplicateQuery "run" "English");
                    EvPrintln "Duplicate detected, omitting."])%list)
   /\ (forall n,
         ~ In (EvNotesAdd n)
             (snd (@main asciiTitle
                     (world ["dict2anki"; "run"] configText runText
                        [oneCard])))))
  /\ (exists word deck pre post,
        snd (@main asciiTitle
               (world ["dict2anki"; "run"] configText runText []))
        = (pre ++ EvCardsGet (duplicateQuery word deck) :: post)%list
        /\ In (EvNotesAdd (@makeNote asciiTitle runCard "English")) post
        /\ checkDeckForDuplicate word deck
             (world ["dict2anki"; "run"] configText runText [])
           = (Returned (false, None),
              [EvCardsGet (duplicateQuery word deck)])).
Proof.
  split.
  - apply (proj1 (@main_duplicate_omitted asciiTitle
             (world ["dict2anki"; "run"] configText runText [oneCard]))
             (duplicateQuery "run" "English") [oneCard]).
    + vm_compute. repeat first [left; reflexivity | right].
    + reflexivity.
    + discriminate.
  - apply (proj2 (@main_duplicate_omitted asciiTitle
             (world ["dict2anki"; "run"] configText runText []))
             (@makeNote asciiTitle runCard "English")).
    vm_compute. repeat first [left; reflexivity | right].
Defined.

(** C6. With the program name as the only argument, the check of [main]
    (which compares the number of arguments with zero) lets the run go on:
    no help is printed, the configuration is loaded, Anki is pinged, and
    the read of the word, [os.Args[1]], panics. *)
Theorem main_program_name_only (Title : Caser) :
  main (world ["dict2anki"] configText runText [])
  = (Panicked (IndexOutOfRange 1 1),
     [EvUserHomeDir; EvOpen (configPath home); EvClose (configPath home);
      EvPing]).
Proof. vm_compute. reflexivity. Qed.

(** C7 as stated fails. A configuration file that is valid JSON and has no
    [apiKey] member makes [LoadConfig] return an error when its [deckName]
    is a number, and also when the file is a JSON array. *)
Lemma LoadConfig_valid_json_rejected :
  (checkValid numberDeckText = inl (JObject [("deckName", JNumber "7")])
   /\ missing FAPIKey [("deckName", JNumber "7")]
   /\ fst (LoadConfig (world ["dict2anki"; "run"] numberDeckText runText []))
      = Returned (Config_zero, Some (UnmarshalTypeError "number" "string")))
  /\ (checkValid arrayText = inl (JArray [])
      /\ fst (LoadConfig (world ["dict2anki"; "run"] arrayText runText []))
         = Returned (Config_zero,
                     Some (UnmarshalTypeError "array" "main.Config"))).
Proof.
  repeat split; try (vm_compute; reflexivity).
  intros k v [[= <- <-]|[]]. vm_compute. discriminate.
Qed.

Lemma LoadConfig_missing_field_witness :
  exists cfg,
    fst (LoadConfig (world ["dict2anki"; "run"] deckOnlyText runText []))
    = Returned (cfg, None)
    /\ APIKey cfg = "".
Proof.
  destruct (LoadConfig_missing_field
              (world ["dict2anki"; "run"] deckOnlyText runText [])
              home (file deckOnlyText)
              [("deckName", JString "English")] "")
    as (cfg & Hcfg & Hapi & _).
  - reflexivity.
  - reflexivity.
  - vm_compute. reflexivity.
  - intros k v [[= <- <-]|[]] _. reflexivity.
  - exists cfg. split; [exact Hcfg|]. apply Hapi.
    intros k v [[= <- <-]|[]]. vm_compute. discriminate.
Defined.

Lemma requestDefinition_errors_witness :
  (requestDefinition "run" "K"
     (worldWithGet (inr (SystemError "no such host")))
   = (Returned (Card_zero, Some (SystemError "no such host")),
      EvHttpGet (definitionURL "run" "K")
        :: map EvPrintln (diagnostic StageGet))
   /\ @main asciiTitle (worldWithGet (inr (SystemError "no such host")))
      = (Returned tt,
         ([EvUserHomeDir; EvOpen (configPath home);
           EvClose (configPath home)]
            ++ EvPing :: EvHttpGet (definitionURL "run" "K")
            :: map EvPrintln (diagnostic StageGet)
            ++ [EvPrintln fetchFatal])%list))
  /\ (forall card e tr,
        requestDefinition "run" "K"
          (world ["dict2anki"; "run"] configText runText [])
        <> (Returned (card, Some e), tr)).
Proof.
  split; [split|].
  - apply (proj1 (@requestDefinition_errors asciiTitle
             (worldWithGet (inr (SystemError "no such host"))) "run" "K")
             StageGet (SystemError "no such host")).
    reflexivity.
  - apply (proj2 (proj2 (proj2 (@requestDefinition_errors asciiTitle
             (worldWithGet (inr (SystemError "no such host"))) "run" "K")))
             StageGet (SystemError "no such host") "dict2anki" []
             {| APIKey := "K"; DeckName := "English" |}
             [EvUserHomeDir; EvOpen (configPath home);
              EvClose (configPath home)]);
      vm_compute; reflexivity.
  - apply (proj1 (proj2 (@requestDefinition_errors asciiTitle
             (world ["dict2anki"; "run"] configText runText []) "run" "K"))).
    vm_compute. reflexivity.
Defined.

(** C8 as stated fails. The error that [requestDefinition] returns is the
    error of the stage that failed, as that stage gave it, not one error
    for all: a GET that fails, a body whose reading fails and a body that
    is not an array of cards give the caller three different errors. *)
Lemma requestDefinition_errors_differ :
  fst (requestDefinition "run" "K"
         (worldWithGet (inr (SystemError "no such host"))))
  = Returned (Card_zero, Some (SystemError "no such host"))
  /\ fst (requestDefinition "run" "K"
            (worldWithGet
               (inl {| http.Body :=
                         {| data := "[";
                            fault := Some io_ErrUnexpectedEOF |} |})))
     = Returned (Card_zero, Some io_ErrUnexpectedEOF)
  /\ fst (requestDefinition "run" "K"
            (worldWithGet (inl {| http.Body := file "{}" |})))
     = Returned (Card_zero, Some (UnmarshalTypeError "object" "[]main.Card"))
  /\ SystemError "no such host" <> io_ErrUnexpectedEOF
  /\ SystemError "no such host" <> UnmarshalTypeError "object" "[]main.Card"
  /\ io_ErrUnexpectedEOF <> UnmarshalTypeError "object" "[]main.Card".
Proof.
  repeat split; try (vm_compute; reflexivity); discriminate.
Qed.

(** C9. Two runs that do not end by a return of [main]: with the program
    name as the only argument, and with an empty array as the answer of
    the dictionary, the run ends on a panic and the exit status is 2. *)
Theorem exitStatus_on_index_faults (Title : Caser) :
  (fst (main (world ["dict2anki"] configText runText []))
   = Panicked (IndexOutOfRange 1 1)
   /\ exitStatus (world ["dict2anki"] configText runText []) = 2%Z)
  /\ (fst (main (world ["dict2anki"; "run"] configText arrayText []))
      = Panicked (IndexOutOfRange 0 0)
      /\ exitStatus (world ["dict2anki"; "run"] configText arrayText [])
         = 2%Z).
Proof. repeat split; vm_compute; reflexivity. Qed.

End Runs.

(** ** Plain JSON texts: what is written is what is read *)

Section PlainText.
Import json unmarshal.

Lemma append_cons (x : ascii) (a b : string) :
  String x a ++ b = String x (a ++ b).
Proof. reflexivity. Qed.

Lemma append_nil (b : string) : EmptyString ++ b = b.
Proof. reflexivity. Qed.

Lemma append_assoc (a b c : string) : (a ++ b) ++ c = a ++ (b ++ c).
Proof.
  induction a as [|x a IH]; [reflexivity|].
  rewrite !append_cons. f_equal. exact IH.
Qed.

Lemma length_append (a b : string) :
  String.length (a ++ b) = String.length a + String.length b.
Proof.
  induction a as [|x a IH]; [reflexivity|].
  rewrite append_cons. simpl. now rewrite IH.
Qed.

Ltac flatten :=
  unfold configJSON, entryJSON, literal, quote, bytes.str;
  repeat first [rewrite append_assoc | rewrite append_cons | rewrite append_nil].

Lemma plainByte_scanned (c : ascii) :
  plainByte c = true ->
  Ascii.eqb c bytes.dquote = false
  /\ Ascii.eqb c bytes.backslash = false
  /\ (bytes.code c <? 32)%N = false
  /\ (bytes.code c <? 128)%N = true.
Proof.
  unfold plainByte, bytes.between. intros H.
  apply andb_prop in H as [H Hb]. apply andb_prop in H as [H Hq].
  apply andb_prop in H as [Hlo Hhi].
  apply negb_true_iff in Hb, Hq.
  apply N.leb_le in Hlo, Hhi.
  repeat split; try assumption.
  - apply N.ltb_ge. exact Hlo.
  - apply N.ltb_lt. lia.
Qed.

Lemma stringBody_plain (s rest : string) :
  plain s = true ->
  stringBody (s ++ String bytes.dquote rest) = Ok s rest.
Proof.
  induction s as [|c s IH]; intros Hp.
  - reflexivity.
  - simpl in Hp. apply andb_prop in Hp as [Hc Hs].
    destruct (plainByte_scanned c Hc) as (Hq & Hb & Hlo & Hhi).
    rewrite append_cons.
    cbn [stringBody]. rewrite Hq, Hb, Hlo, Hhi, (IH Hs). reflexivity.
Qed.

Ltac decide_bytes :=
  repeat match goal with
         | |- context [Ascii.eqb ?a ?b] =>
             let v := eval vm_compute in (Ascii.eqb a b) in
             lazymatch v with
             | true => change (Ascii.eqb a b) with true
             | false => change (Ascii.eqb a b) with false
             end
         | |- context [isSpace ?a] =>
             let v := eval vm_compute in (isSpace a) in
             lazymatch v with
             | true => change (isSpace a) with true
             | false => change (isSpace a) with false
             end
         end;
  cbv iota.

Ltac right_nest := rewrite ?append_assoc.

(** A string literal of plain text is read as that text. *)
Lemma value_literal (fuel : nat) (depth : N) (s rest : string) :
  plain s = true ->
  value (S fuel) depth (literal s ++ rest) = Ok (JString s) rest.
Proof.
  intros Hp. unfold literal, quote, bytes.str. right_nest.
  rewrite !append_cons, !append_nil.
  cbn [value skipSpace]. decide_bytes.
  rewrite (stringBody_plain s rest Hp). reflexivity.
Qed.

Lemma members_last (fuel : nat) (depth : N) (k vtext rest : string)
    (v : Value) :
  plain k = true ->
  value fuel depth (vtext ++ "}" ++ rest) = Ok v ("}" ++ rest) ->
  members (S fuel) depth (literal k ++ ":" ++ vtext ++ "}" ++ rest)
  = Ok [(k, v)] rest.
Proof.
  intros Hp Hv. unfold literal, quote, bytes.str. right_nest.
  rewrite !append_cons, !append_nil.
  cbn [members skipSpace]. decide_bytes.
  rewrite (stringBody_plain k _ Hp).
  cbn [skipSpace]. decide_bytes.
  rewrite append_cons, append_nil in Hv. rewrite Hv.
  cbn [skipSpace]. decide_bytes. reflexivity.
Qed.

Lemma members_more (fuel : nat) (depth : N) (k vtext more rest : string)
    (v : Value) (ms : list (string * Value)) :
  plain k = true ->
  value fuel depth (vtext ++ "," ++ more) = Ok v ("," ++ more) ->
  members fuel depth more = Ok ms rest ->
  members (S fuel) depth (literal k ++ ":" ++ vtext ++ "," ++ more)
  = Ok ((k, v) :: ms) rest.
Proof.
  intros Hp Hv Hm. unfold literal, quote, bytes.str. right_nest.
  rewrite !append_cons, !append_nil.
  cbn [members skipSpace]. decide_bytes.
  rewrite (stringBody_plain k _ Hp).
  cbn [skipSpace]. decide_bytes.
  rewrite append_cons, append_nil in Hv. rewrite Hv.
  cbn [skipSpace]. decide_bytes. rewrite Hm. reflexivity.
Qed.

Lemma value_object (fuel : nat) (depth : N) (k x rest : string)
    (ms : list (string * Value)) :
  (depth < maxNestingDepth)%N ->
  members fuel (depth + 1) (literal k ++ x) = Ok ms rest ->
  value (S fuel) depth ("{" ++ literal k ++ x) = Ok (JObject ms) rest.
Proof.
  intros Hdepth Hm. 
  assert (Hlt : (maxNestingDepth <? depth + 1)%N = false) by (apply N.ltb_ge; lia).
  revert Hm. unfold literal, quote, bytes.str. right_nest.
  rewrite !append_cons, !append_nil. intros Hm.
  cbn [value skipSpace]. decide_bytes. rewrite Hlt.
  cbn [skipSpace]. decide_bytes. rewrite Hm. reflexivity.
Qed.

Lemma value_configJSON (fuel : nat) (key deck rest : string) :
  plain key = true -> plain deck = true ->
  value (4 + fuel) 0 (configJSON key deck ++ rest)
  = Ok (JObject [("apiKey", JString key); ("deckName", JString deck)]) rest.
Proof.
  intros Hk Hd. unfold configJSON. right_nest.
  change (4 + fuel) with (S (S (S (S fuel)))).
  apply value_object; [reflexivity|].
  apply members_more; [reflexivity | now apply value_literal |].
  apply members_last; [reflexivity | now apply value_literal].
Qed.

Lemma elements_one (fuel : nat) (depth : N) (vtext rest : string) (v : Value) :
  value fuel depth (vtext ++ "]" ++ rest) = Ok v ("]" ++ rest) ->
  elements (S fuel) depth (vtext ++ "]" ++ rest) = Ok [v] rest.
Proof.
  intros Hv. cbn [elements]. rewrite Hv.
  rewrite append_cons, append_nil. cbn [skipSpace]. decide_bytes. reflexivity.
Qed.

Lemma elements_more (fuel : nat) (depth : N) (vtext more rest : string)
    (v : Value) (vs : list Value) :
  value fuel depth (vtext ++ "," ++ more) = Ok v ("," ++ more) ->
  elements fuel depth more = Ok vs rest ->
  elements (S fuel) depth (vtext ++ "," ++ more) = Ok (v :: vs) rest.
Proof.
  intros Hv He. cbn [elements]. rewrite Hv.
  rewrite append_cons, append_nil. cbn [skipSpace]. decide_bytes.
  rewrite He. reflexivity.
Qed.

Lemma value_array (fuel : nat) (depth : N) (c : ascii) (x rest : string)
    (vs : list Value) :
  (depth < maxNestingDepth)%N ->
  isSpace c = false -> Ascii.eqb c "]" = false ->
  elements fuel (depth + 1) (String c x) = Ok vs rest ->
  value (S fuel) depth ("[" ++ String c x) = Ok (JArray vs) rest.
Proof.
  intros Hdepth Hs Hc He.
  assert (Hlt : (maxNestingDepth <? depth + 1)%N = false) by (apply N.ltb_ge; lia).
  rewrite append_cons, append_nil.
  cbn [value skipSpace]. decide_bytes. rewrite Hlt.
  cbn [skipSpace]. rewrite Hs, Hc, He. reflexivity.
Qed.

Lemma elements_literals (ds : list string) :
  forall (d0 : string) (fuel : nat) (depth : N) (rest : string),
    length ds + 2 <= fuel ->
    forallb plain (d0 :: ds) = true ->
    elements fuel depth (literals (d0 :: ds) ++ "]" ++ rest)
    = Ok (map JString (d0 :: ds)) rest.
Proof.
  induction ds as [|d1 ds IH]; intros d0 fuel depth rest Hfuel Hp;
    cbn [forallb] in Hp; apply andb_prop in Hp as [Hd0 Hp].
  - destruct fuel as [|[|fuel]]; try (simpl in Hfuel; lia).
    cbn [literals map]. apply elements_one. now apply value_literal.
  - destruct fuel as [|[|fuel]]; try (simpl in Hfuel; lia).
    change (literals (d0 :: d1 :: ds))
      with (literal d0 ++ "," ++ literals (d1 :: ds)).
    right_nest. cbn [map].
    apply elements_more; [now apply value_literal|].
    apply IH; [simpl in *; lia | exact Hp].
Qed.

Lemma literal_cons (s : string) :
  literal s = String bytes.dquote (s ++ String bytes.dquote EmptyString).
Proof. reflexivity. Qed.

Lemma value_literals (ds : list string) (fuel : nat) (depth : N)
    (rest : string) :
  (depth < maxNestingDepth)%N ->
  length ds + 1 <= fuel ->
  forallb plain ds = true ->
  value (S fuel) depth ("[" ++ literals ds ++ "]" ++ rest)
  = Ok (JArray (map JString ds)) rest.
Proof.
  intros Hdepth Hfuel Hp. destruct ds as [|d0 ds].
  - assert (Hlt : (maxNestingDepth <? depth + 1)%N = false)
      by (apply N.ltb_ge; lia).
    cbn [literals map]. rewrite !append_nil, !append_cons, append_nil.
    cbn [value skipSpace]. decide_bytes. rewrite Hlt.
    cbn [skipSpace]. decide_bytes. reflexivity.
  - pose proof (elements_literals ds d0 fuel (depth + 1) rest) as He.
    assert (Hshape : exists x, literals (d0 :: ds) ++ "]" ++ rest
                               = String bytes.dquote x).
    { cbn [literals]. destruct ds; rewrite literal_cons; right_nest;
        rewrite append_cons; eauto. }
    destruct Hshape as [x Hx]. rewrite Hx in *.
    apply value_array; try reflexivity; [assumption|].
    apply He; [simpl in *; lia | exact Hp].
Qed.

Lemma length_literals (ds : list string) :
  length ds <= String.length (literals ds).
Proof.
  induction ds as [|d ds IH]; [simpl; lia|].
  cbn [literals]. destruct ds as [|d' ds'].
  - unfold literal. rewrite !length_append. simpl. lia.
  - unfold literal in *. rewrite !length_append in *. simpl in *. lia.
Qed.

Ltac reassoc := unfold entryJSON; rewrite ?append_assoc; reflexivity.

Lemma value_entryJSON (fuel : nat) (p : string) (ds : list string)
    (rest : string) :
  plain p = true -> forallb plain ds = true ->
  value (7 + length ds + fuel) 0 (entryJSON p ds ++ rest)
  = Ok (JArray [JObject [("fl", JString p);
                         ("shortdef", JArray (map JString ds))]]) rest.
Proof.
  intros Hp Hds.
  change (7 + length ds + fuel)
    with (S (S (S (S (S (S (S (length ds + fuel)))))))).
  set (arr := "[" ++ literals ds ++ "]").
  set (inner := literal "fl" ++ ":" ++ literal p ++ ","
                  ++ literal "shortdef" ++ ":" ++ arr ++ "}").
  replace (entryJSON p ds ++ rest)
    with ("[" ++ String "{" (inner ++ "]" ++ rest))
    by (unfold inner, arr; reassoc).
  apply value_array; try reflexivity.
  replace (String "{" (inner ++ "]" ++ rest))
    with (("{" ++ inner) ++ "]" ++ rest) by reassoc.
  apply elements_one.
  replace (("{" ++ inner) ++ "]" ++ rest)
    with ("{" ++ literal "fl" ++ ":" ++ literal p ++ ","
              ++ literal "shortdef" ++ ":" ++ arr ++ "}" ++ "]" ++ rest)
    by (unfold inner; reassoc).
  apply value_object; [reflexivity|].
  apply members_more; [reflexivity | now apply value_literal |].
  apply members_last; [reflexivity |].
  replace (arr ++ "}" ++ "]" ++ rest)
    with ("[" ++ literals ds ++ "]" ++ "}" ++ "]" ++ rest)
    by (unfold arr; reassoc).
  apply value_literals; [reflexivity | lia | exact Hds].
Qed.

Lemma append_empty (a : string) : a ++ EmptyString = a.
Proof.
  induction a as [|x a IH]; [reflexivity|]. rewrite append_cons. now f_equal.
Qed.

Lemma parse_configJSON (key deck trailing : string) :
  plain key = true -> plain deck = true ->
  parse (configJSON key deck ++ trailing)
  = Ok (JObject [("apiKey", JString key); ("deckName", JString deck)])
       trailing.
Proof.
  intros Hk Hd. unfold parse.
  assert (Hlen : 1 <= String.length (configJSON key deck ++ trailing)).
  { unfold configJSON. rewrite !length_append. simpl. lia. }
  replace (2 * String.length (configJSON key deck ++ trailing) + 2)
    with (4 + (2 * String.length (configJSON key deck ++ trailing) - 2))
    by lia.
  now apply value_configJSON.
Qed.

Lemma parse_entryJSON (p : string) (ds : list string) :
  plain p = true -> forallb plain ds = true ->
  checkValid (entryJSON p ds)
  = inl (JArray [JObject [("fl", JString p);
                          ("shortdef", JArray (map JString ds))]]).
Proof.
  intros Hp Hds. unfold checkValid, parse.
  assert (Hlen : 7 + length ds <= 2 * String.length (entryJSON p ds) + 2).
  { pose proof (length_literals ds). unfold entryJSON, literal.
    rewrite !length_append. simpl. lia. }
  rewrite <- (append_empty (entryJSON p ds)) at 2.
  replace (2 * String.length (entryJSON p ds) + 2)
    with (7 + length ds
          + (2 * String.length (entryJSON p ds) + 2 - (7 + length ds)))
    by lia.
  rewrite (value_entryJSON _ p ds EmptyString Hp Hds). reflexivity.
Qed.

(** X2. A configuration file that starts with the object of the two
    members [apiKey] and [deckName], holding plain texts, loads as the
    [Config] of these two texts; what follows the object in the file is
    not read, and the file is closed. *)
Theorem LoadConfig_round_trip (w : World) (home : string) (f : Reader)
    (key deck trailing : string) :
  os_UserHomeDir w = inl home ->
  os_Open w (configPath home) = inl f ->
  data f = configJSON key deck ++ trailing ->
  plain key = true -> plain deck = true ->
  LoadConfig w
  = (Returned ({| APIKey := key; DeckName := deck |}, None),
     [EvUserHomeDir; EvOpen (configPath home); EvClose (configPath home)]).
Proof.
  intros Hhome Hopen Hdata Hk Hd.
  unfold LoadConfig. rewrite run_bind. unfold os.UserHomeDir, ask.
  rewrite Hhome, run_bind. unfold os.Open, ask. rewrite Hopen.
  unfold Decode. rewrite Hdata, (parse_configJSON key deck trailing Hk Hd).
  reflexivity.
Qed.

(** X4. When the dictionary answers an array of one entry whose [fl] and
    [shortdef] hold plain texts, [requestDefinition] returns the card of
    the word asked for, with that part of speech and these definitions,
    all of them and in their order. *)
Theorem requestDefinition_round_trip (w : World) (word key : string)
    (resp : http.Response) (p : string) (ds : list string) :
  http_Get w (definitionURL word key) = inl resp ->
  fault (http.Body resp) = None ->
  data (http.Body resp) = entryJSON p ds ->
  plain p = true -> forallb plain ds = true ->
  requestDefinition word key w
  = (Returned ({| Word := word; PartOfSpeech := p;
                  Definitions := slice_of ds |}, None),
     [EvHttpGet (definitionURL word key)]).
Proof.
  intros Hget Hfault Hdata Hp Hds.
  rewrite (requestDefinition_got _ _ _ _ Hget).
  rewrite (parseResponse_decoded (http.Body resp) w
             {| Word := ""; PartOfSpeech := p; Definitions := slice_of ds |}
             [] Hfault).
  - reflexivity.
  - unfold Unmarshal. rewrite Hdata, (parse_entryJSON p ds Hp Hds).
    cbn [storeCards storeCardElems]. rewrite storeCard_fl_shortdef.
    reflexivity.
Qed.
End PlainText.

(** ** The fetcher on other answers *)

Section FetcherEdges.
Import json unmarshal.

Lemma storeCardElems_length (vs : list Value) :
  length (fst (storeCardElems vs)) = length vs.
Proof.
  induction vs as [|v vs IH]; [reflexivity|]. simpl.
  destruct (storeCard Card_zero v). destruct (storeCardElems vs).
  simpl in *. now rewrite IH.
Qed.

(** What [parseResponse] does with a body that was read to its end, by the
    JSON value of the body. *)
Lemma parseResponse_panics (body : Reader) (w : World) (p : Panic)
    (t : list Event) :
  parseResponse body w = (Panicked p, t) ->
  p = IndexOutOfRange 0 0 /\ t = []
  /\ fault body = None
  /\ (checkValid (data body) = inl (JArray [])
      \/ checkValid (data body) = inl JNull).
Proof.
  unfold parseResponse, io_ReadAll, Unmarshal.
  destruct (fault body) as [e|]; [discriminate|].
  destruct (checkValid (data body)) as [v|e]; [|discriminate].
  destruct v as [| | | |vs|]; simpl; try discriminate.
  - intros [= <- <-]. auto.
  - pose proof (storeCardElems_length vs) as Hlen.
    destruct (storeCardElems vs) as [cs [e|]]; [discriminate|].
    destruct cs as [|c cs]; [|discriminate].
    destruct vs; [|discriminate Hlen].
    intros [= <- <-]. auto.
Qed.

(** X3. [parseResponse] panics exactly when the body was read to its end
    and is the empty JSON array or the JSON value [null]: these are the
    two bodies that decode to an empty slice of cards. *)
Theorem parseResponse_panics_iff (body : Reader) (w : World) :
  (exists p t, parseResponse body w = (Panicked p, t))
  <-> fault body = None
      /\ (checkValid (data body) = inl (JArray [])
          \/ checkValid (data body) = inl JNull).
Proof.
  split.
  - intros (p & t & H). apply parseResponse_panics in H. tauto.
  - intros (Hf & [Hv | Hv]); exists (IndexOutOfRange 0 0), [];
      unfold parseResponse, io_ReadAll, Unmarshal; rewrite Hf, Hv; reflexivity.
Qed.

Lemma requestDefinition_panics (w : World) (word key : string) (p : Panic)
    (t : list Event) :
  requestDefinition word key w = (Panicked p, t) ->
  p = IndexOutOfRange 0 0
  /\ t = [EvHttpGet (definitionURL word key)]
  /\ exists resp,
       http_Get w (definitionURL word key) = inl resp
       /\ fault (http.Body resp) = None
       /\ (checkValid (data (http.Body resp)) = inl (JArray [])
           \/ checkValid (data (http.Body resp)) = inl JNull).
Proof.
  destruct (http_Get w (definitionURL word key)) as [resp|e] eqn:Hget.
  - rewrite (requestDefinition_got _ _ _ _ Hget).
    destruct (parseResponse (http.Body resp) w) as [[[card [e|]]|p'] t'] eqn:HP;
      try discriminate.
    intros [= <- <-]. apply parseResponse_panics in HP as (-> & -> & Hf & Hv).
    repeat split. exists resp. auto.
  - unfold requestDefinition. rewrite run_bind. unfold client.Get, ask.
    rewrite Hget. discriminate.
Qed.

(** An element that is neither an object nor [null] is an error of the
    whole array. *)
Lemma storeCardElems_kind (vs : list Value) (v : Value) :
  In v vs -> cardKind v = false -> snd (storeCardElems vs) <> None.
Proof.
  induction vs as [|x vs IH]; [intros []|].
  intros [-> | Hin] Hk; simpl.
  - destruct (storeCardElems vs) as [cs e2].
    destruct v; try discriminate Hk; simpl; discriminate.
  - specialize (IH Hin Hk).
    destruct (storeCard Card_zero x) as [c e1].
    destruct (storeCardElems vs) as [cs e2]. simpl in *.
    destruct e1; [discriminate | exact IH].
Qed.

(** X5. When an element of the answer, the first one or a later one, is
    neither an object nor [null] (the dictionary answers an array of
    strings for a word it does not know), [requestDefinition] returns an
    error and the zero card, after the two lines of a failed decoding. *)
Theorem requestDefinition_rejects_unshaped (w : World) (word key : string)
    (resp : http.Response) (vs : list Value) (v : Value) :
  http_Get w (definitionURL word key) = inl resp ->
  fault (http.Body resp) = None ->
  checkValid (data (http.Body resp)) = inl (JArray vs) ->
  In v vs -> cardKind v = false ->
  exists e,
    requestDefinition word key w
    = (Returned (Card_zero, Some e),
       [EvHttpGet (definitionURL word key);
        EvPrintln "Error: Failed to parse response body JSON.";
        EvPrintln "Error: Failed to parse response"]).
Proof.
  intros Hget Hfault Hvalid Hin Hk.
  pose proof (storeCardElems_kind vs v Hin Hk) as Herr.
  destruct (storeCardElems vs) as [cs [e|]] eqn:HS; [|now elim Herr].
  exists e. rewrite (requestDefinition_got _ _ _ _ Hget).
  rewrite (parseResponse_undecoded _ _ cs e Hfault); [reflexivity|].
  unfold Unmarshal. rewrite Hvalid. exact HS.
Qed.

(** Members that name no field leave a card as it is. *)
Lemma object_unnamed (ms : list (string * Value)) (cur : Card) :
  (forall k x, In (k, x) ms -> lookupField CardFields k = None) ->
  object CardFields storeCardField ms cur = (cur, None).
Proof.
  unfold object. revert cur. induction ms as [|[k x] ms IH]; intros cur H.
  - reflexivity.
  - simpl fold_left. simpl fst. rewrite (H k x) by now left.
    apply IH. intros k' x' Hin. apply (H k' x'). now right.
Qed.

Lemma storeCard_setsNothing (v : Value) :
  setsNothing v -> storeCard Card_zero v = (Card_zero, None).
Proof.
  destruct v; simpl; try contradiction; [reflexivity|].
  apply object_unnamed.
Qed.

(** X6. When the first element of the answer is [null] or an object
    without a member that names a field of [Card], and the other elements
    decode, [requestDefinition] returns without error a card that has the
    word and nothing else; the note made of it has the two line breaks as
    its [Back]. *)
Theorem requestDefinition_empty_card (Title : Caser) (w : World)
    (word key deck : string) (resp : http.Response) (v : Value)
    (vs : list Value) :
  http_Get w (definitionURL word key) = inl resp ->
  fault (http.Body resp) = None ->
  checkValid (data (http.Body resp)) = inl (JArray (v :: vs)) ->
  setsNothing v ->
  snd (storeCardElems vs) = None ->
  requestDefinition word key w
  = (Returned ({| Word := word; PartOfSpeech := "";
                  Definitions := nil_slice |}, None),
     [EvHttpGet (definitionURL word key)])
  /\ ankiconnect.Fields
       (makeNote {| Word := word; PartOfSpeech := "";
                    Definitions := nil_slice |} deck) !! "Back"
     = Some "<br><br>".
Proof.
  intros Hget Hfault Hvalid Hv Hvs. split; [|reflexivity].
  rewrite (requestDefinition_got _ _ _ _ Hget).
  rewrite (parseResponse_decoded (http.Body resp) w Card_zero
             (fst (storeCardElems vs)) Hfault); [reflexivity|].
  unfold Unmarshal. rewrite Hvalid. cbn [storeCards storeCardElems].
  rewrite (storeCard_setsNothing v Hv).
  destruct (storeCardElems vs) as [cs e]. simpl in *. now subst e.
Qed.

(** The text before the first occurrence of a byte. *)
Lemma split_at_byte (c : ascii) (s1 s2 t1 t2 : string) :
  bytes.count c s1 = 0 ->
  bytes.count c s2 = 0 ->
  s1 ++ String c t1 = s2 ++ String c t2 ->
  s1 = s2 /\ t1 = t2.
Proof.
  assert (Hc : forall s, bytes.count c (String c s) <> 0).
  { intros s. cbn [bytes.count]. rewrite Ascii.eqb_refl. discriminate. }
  revert s2. induction s1 as [|x s1 IH]; intros [|y s2].
  - intros _ _ [= ->]. split; reflexivity.
  - intros _ H [= <- _]. now apply Hc in H.
  - intros H _ [= -> _]. now apply Hc in H.
  - intros H1 H2 [= -> H]. cbn [bytes.count] in H1, H2.
    destruct (IH s2) as [-> ->]; try assumption; try lia.
    split; reflexivity.
Qed.

Lemma requestDefinition_first (w : World) (word key : string) :
  hd_error (snd (requestDefinition word key w))
  = Some (EvHttpGet (definitionURL word key)).
Proof.
  unfold requestDefinition. rewrite run_bind. unfold client.Get, ask.
  destruct (http_Get w (definitionURL word key)) as [resp|e]; [|reflexivity].
  rewrite run_bind.
  destruct (parseResponse (http.Body resp) w) as [[[card [e|]]|p] t];
    reflexivity.
Qed.

Lemma append_cancel (p a b : string) : p ++ a = p ++ b -> a = b.
Proof.
  induction p as [|x p IH]; [trivial|].
  change (String x p ++ ?y) with (String x (p ++ y)).
  intros [= H]. now apply IH.
Qed.

(** X7. The first thing [requestDefinition] does, in every world and
    whatever happens next, is the GET of the URL made of the address of
    the dictionary, the word, [?key=] and the key, word and key as they
    are. For words without a question mark, two calls send the same URL
    only for the same word and the same key; with a question mark in the
    word, a different word and key send the same URL. *)
Theorem requestDefinition_url (w : World) :
  (forall word key,
      hd_error (snd (requestDefinition word key w))
      = Some (EvHttpGet
                ("https://www.dictionaryapi.com/api/v3/references/collegiate/json/"
                   ++ word ++ "?key=" ++ key)))
  /\ (forall word1 key1 word2 key2,
        bytes.count "?" word1 = 0 -> bytes.count "?" word2 = 0 ->
        hd_error (snd (requestDefinition word1 key1 w))
        = hd_error (snd (requestDefinition word2 key2 w)) ->
        word1 = word2 /\ key1 = key2)
  /\ (hd_error (snd (requestDefinition "a?key=b" "c" w))
      = Some (EvHttpGet
                "https://www.dictionaryapi.com/api/v3/references/collegiate/json/a?key=b?key=c")
      /\ hd_error (snd (requestDefinition "a" "b?key=c" w))
         = Some (EvHttpGet
                   "https://www.dictionaryapi.com/api/v3/references/collegiate/json/a?key=b?key=c")).
Proof.
  split; [|split; [|split]].
  - intros word key. apply requestDefinition_first.
  - intros word1 key1 word2 key2 H1 H2. rewrite !requestDefinition_first.
    intros [= H]. unfold definitionURL in H.
    apply append_cancel in H.
    change ("?key=" ++ ?k) with (String "?" ("key=" ++ k)) in H.
    apply split_at_byte in H as [-> H]; try assumption.
    apply append_cancel in H. now subst.
  - rewrite requestDefinition_first. reflexivity.
  - rewrite requestDefinition_first. reflexivity.
Qed.
End FetcherEdges.

(** ** The runs of the whole program *)

Section RunOfMain.
Import json unmarshal.
Context {Title : Caser}.

(** The four shapes of a run of [LoadConfig]. *)
Lemma LoadConfig_shape (w : World) :
  (exists e, os_UserHomeDir w = inr e
             /\ LoadConfig w = (Returned (Config_zero, Some e), [EvUserHomeDir]))
  \/ (exists home e,
        os_UserHomeDir w = inl home /\ os_Open w (configPath home) = inr e
        /\ LoadConfig w
           = (Returned (Config_zero, Some e),
              [EvUserHomeDir; EvOpen (configPath home)]))
  \/ (exists home f cfg e,
        os_UserHomeDir w = inl home /\ os_Open w (configPath home) = inl f
        /\ Decode storeConfig f Config_zero = (cfg, Some e)
        /\ LoadConfig w
           = (Returned (Config_zero, Some e),
              [EvUserHomeDir; EvOpen (configPath home);
               EvClose (configPath home)]))
  \/ (exists home f cfg,
        os_UserHomeDir w = inl home /\ os_Open w (configPath home) = inl f
        /\ Decode storeConfig f Config_zero = (cfg, None)
        /\ LoadConfig w
           = (Returned (cfg, None),
              [EvUserHomeDir; EvOpen (configPath home);
               EvClose (configPath home)])).
Proof.
  unfold LoadConfig. rewrite run_bind. unfold os.UserHomeDir, ask.
  destruct (os_UserHomeDir w) as [home|e] eqn:Hhome;
    [|left; exists e; split; reflexivity].
  rewrite run_bind. unfold os.Open, ask.
  destruct (os_Open w (configPath home)) as [f|e] eqn:Hopen;
    [|right; left; exists home, e; repeat split; assumption || reflexivity].
  destruct (Decode storeConfig f Config_zero) as [cfg [e|]] eqn:HD.
  - right; right; left. exists home, f, cfg, e.
    repeat split; assumption || reflexivity.
  - right; right; right. exists home, f, cfg.
    repeat split; assumption || reflexivity.
Qed.

(** [LoadConfig] has no fault of its own: it returns in every world. *)
Lemma LoadConfig_returns (w : World) :
  exists cfg err t, LoadConfig w = (Returned (cfg, err), t).
Proof.
  destruct (LoadConfig_shape w)
    as [(e & _ & H) | [(h & e & _ & _ & H) | [(h & f & c & e & _ & _ & _ & H)
       | (h & f & c & _ & _ & _ & H)]]]; rewrite H; eauto.
Qed.

(** The end of [main] runs as [AfterFetch] says. *)
Lemma addUnlessDuplicate_run (card : Card) (config : Config) (w : World) :
  AfterFetch w card config (fst (addUnlessDuplicate card config w))
    (snd (addUnlessDuplicate card config w)).
Proof.
  unfold addUnlessDuplicate, checkDeckForDuplicate, client.CardsGet.
  rewrite !run_bind. unfold ask.
  destruct (Cards_Get w (duplicateQuery (Word card) (DeckName config)))
    as [[[|c cs]|] [r|]] eqn:Hget; simpl;
    try (econstructor; eassumption).
  unfold addCardToDeck, client.NotesAdd. rewrite !run_bind. unfold ask.
  destruct (Notes_Add w (makeNote card (DeckName config))) as [r|] eqn:Hadd;
    simpl; econstructor; eassumption.
Qed.

(** Every run of [main] is one of the runs of [MainRun]. *)
Lemma main_run (w : World) : MainRun w (fst (main w)) (snd (main w)).
Proof.
  unfold main, os.Args. rewrite bind_ask. cbv beta iota.
  destruct (os_Args w) as [|prog args] eqn:Hargs.
  { simpl. now constructor. }
  change (length (prog :: args) =? 0)%nat with false. cbv iota.
  assert (Hne : prog :: args <> []) by discriminate.
  destruct (LoadConfig_returns w) as (config & err & t0 & HLoad).
  rewrite (bind_returned _ _ _ _ _ HLoad). cbv beta iota.
  destruct err as [e|].
  { simpl. rewrite <- Hargs in Hne. eapply RunConfigFailed; eassumption. }
  unfold client.Ping. rewrite bind_ask. cbv beta iota.
  destruct (Client_Ping w) as [r|] eqn:Hping.
  { simpl. rewrite <- Hargs in Hne. eapply RunPingFailed; eassumption. }
  unfold elemAt. destruct args as [|word rest]; simpl nth_error.
  { simpl. eapply RunNoWord; eassumption. }
  rewrite (bind_returned _ _ _ word [] eq_refl). cbv beta iota.
  destruct (requestDefinition word (APIKey config) w)
    as [[[card [e|]]|p] t] eqn:HReq.
  - rewrite (bind_returned _ _ _ _ _ HReq). simpl.
    eapply RunFetchFailed; eassumption.
  - rewrite (bind_returned _ _ _ _ _ HReq). cbv beta iota.
    unfold println. rewrite !bind_ask. fold println.
    change (mbind _ (checkDeckForDuplicate (Word card) (DeckName config)))
      with (addUnlessDuplicate card config).
    pose proof (addUnlessDuplicate_run card config w) as HA.
    simpl.
    replace (t0 ++ EvPing :: t ++ EvPrintln (Word card)
               :: EvPrintln (PartOfSpeech card)
               :: EvPrintln (String.concat newline (elems (Definitions card)))
               :: snd (addUnlessDuplicate card config w))%list
      with (t0 ++ EvPing :: t ++ shown card
               ++ snd (addUnlessDuplicate card config w))%list
      by reflexivity.
    eapply RunFetched; eassumption.
  - rewrite (bind_panicked _ _ _ _ _ HReq). simpl.
    eapply RunFetchPanicked; eassumption.
Qed.

(** A configuration loaded without error was read from an opened file. *)
Lemma LoadConfig_ok_trace (w : World) (cfg : Config) (t0 : list Event) :
  LoadConfig w = (Returned (cfg, None), t0) ->
  exists home f,
    os_UserHomeDir w = inl home /\ os_Open w (configPath home) = inl f
    /\ t0 = [EvUserHomeDir; EvOpen (configPath home);
             EvClose (configPath home)].
Proof.
  intros HL.
  destruct (LoadConfig_shape w)
    as [(e & _ & H) | [(h & e & _ & _ & H) | [(h & f & c & e & _ & _ & _ & H)
       | (h & f & c & Hh & Ho & _ & H)]]]; rewrite H in HL;
    try discriminate.
  injection HL as _ <-. eauto.
Qed.

(** [requestDefinition] calls the dictionary once and nothing else. *)
Lemma requestDefinition_calls (word key : string) (w : World) :
  calls (snd (requestDefinition word key w)) = [CallGet].
Proof.
  unfold requestDefinition. rewrite run_bind. unfold client.Get, ask.
  destruct (http_Get w (definitionURL word key)) as [resp|e]; [|reflexivity].
  rewrite run_bind. unfold parseResponse, io_ReadAll.
  destruct (fault (http.Body resp)); [reflexivity|].
  destruct (Unmarshal storeCards (data (http.Body resp)) [])
    as [[|c cs] [e|]]; reflexivity.
Qed.

(** A card returned without error carries the word asked for. *)
Lemma requestDefinition_word (word key : string) (w : World) (card : Card)
    (t : list Event) :
  requestDefinition word key w = (Returned (card, None), t) ->
  Word card = word.
Proof.
  unfold requestDefinition. rewrite run_bind. unfold client.Get, ask.
  destruct (http_Get w (definitionURL word key)) as [resp|e]; [|discriminate].
  rewrite run_bind.
  destruct (parseResponse (http.Body resp) w) as [[[c [e|]]|p] t'];
    try discriminate.
  intros [= <- _]. reflexivity.
Qed.

Lemma calls_app (t1 t2 : list Event) :
  calls (t1 ++ t2) = (calls t1 ++ calls t2)%list.
Proof. apply omap_app. Qed.

(** After the card is shown: one search, then at most one addition. *)
Lemma AfterFetch_calls (w : World) (card : Card) (config : Config)
    (o : Outcome unit) (t : list Event) :
  AfterFetch w card config o t ->
  calls t = [CallSearch] \/ calls t = [CallSearch; CallAdd].
Proof. destruct 1; auto. Qed.

(** Closes a goal about the calls of an explicit trace. *)
Ltac calls_tac :=
  repeat match goal with
         | H : requestDefinition ?x ?k ?w = (_, ?t) |- _ =>
             let Hc := fresh "Hc" in
             pose proof (requestDefinition_calls x k w) as Hc;
             rewrite H in Hc; simpl snd in Hc; clear H
         end;
  unfold calls in *; rewrite ?omap_app; cbn [omap list_omap callOf];
  rewrite ?omap_app;
  repeat match goal with
         | H : omap callOf _ = _ |- _ => rewrite H
         end;
  eexists; reflexivity.

(** X8. In every world the calls that [main] makes to the outside (home
    directory, open, close, ping, dictionary, search, addition), in the
    order of the trace, are a beginning of [callOrder]: each is made at
    most once, none out of turn, and a run stops by leaving out the rest. *)
Theorem main_call_order (w : World) :
  exists rest, callOrder = (calls (snd (main w)) ++ rest)%list.
Proof.
  pose proof (main_run w) as H. destruct (main w) as [o tr]. simpl in *.
  destruct H;
    repeat match goal with
           | H : LoadConfig w = (Returned (_, None), _) |- _ =>
               apply LoadConfig_ok_trace in H as (? & ? & _ & _ & ->)
           end;
    try match goal with
        | H : AfterFetch _ _ _ _ _ |- _ =>
            apply AfterFetch_calls in H as [Ha | Ha]
        end;
    try calls_tac.
  destruct (LoadConfig_shape w)
    as [(e' & _ & HL) | [(h & e' & _ & _ & HL)
       | [(h & f & c & e' & _ & _ & _ & HL) | (h & f & c & _ & _ & _ & HL)]]];
    rewrite HL in *; try discriminate;
    match goal with H : (_, _) = (_, _) |- _ => injection H as _ _ <- end;
    eexists; reflexivity.
Qed.

(** X1. In every world [LoadConfig] returns (it has no panic); with an
    error the configuration is the zero [Config]; it prints nothing; and it
    closes exactly the file it managed to open (never a file whose open
    failed, and always the one that was opened, also when decoding
    fails). *)
Theorem LoadConfig_total (w : World) :
  exists cfg err t,
    LoadConfig w = (Returned (cfg, err), t)
    /\ (err <> None -> cfg = Config_zero)
    /\ (forall line, ~ In (EvPrintln line) t)
    /\ (forall p, In (EvClose p) t
                  <-> In (EvOpen p) t /\ exists f, os_Open w p = inl f).
Proof.
  destruct (LoadConfig_shape w)
    as [(e & _ & HL) | [(h & e & _ & Ho & HL)
       | [(h & f & c & e & _ & Ho & _ & HL) | (h & f & c & _ & Ho & _ & HL)]]];
    rewrite HL; do 3 eexists; (split; [reflexivity|]);
    (split; [first [reflexivity | intros H; now elim H]|]);
    (split; [intros line Hin; simpl in Hin; intuition discriminate|]);
    intros p; simpl; split.
  all: try (intros [H | [H | [H | []]]]; try discriminate H;
            injection H as <-; split; [auto | eauto]).
  all: try (intros [H | [H | []]]; discriminate H).
  all: try (intros [H | []]; discriminate H).
  all: try (intros [[H | [H | [H | []]]] _]; try discriminate H;
            injection H as <-; auto).
  - intros [[H | []] _]. discriminate H.
  - intros [[H | [H | []]] [f Hf]]; try discriminate H.
    injection H as <-. rewrite Ho in Hf. discriminate.
Qed.

(** The events of [requestDefinition]: its one GET and printed lines. *)
Lemma requestDefinition_events (word key : string) (w : World) (e : Event) :
  In e (snd (requestDefinition word key w)) ->
  e = EvHttpGet (definitionURL word key) \/ exists line, e = EvPrintln line.
Proof.
  unfold requestDefinition. rewrite run_bind. unfold client.Get, ask.
  destruct (http_Get w (definitionURL word key)) as [resp|err].
  - rewrite run_bind. unfold parseResponse, io_ReadAll.
    destruct (fault (http.Body resp)).
    + simpl. intuition eauto.
    + destruct (Unmarshal storeCards (data (http.Body resp)) [])
        as [[|c cs] [err|]]; simpl; intuition eauto.
  - simpl. intuition eauto.
Qed.

(** The events of [LoadConfig]: the home directory, an open, a close. *)
Lemma LoadConfig_events (w : World) (e : Event) :
  In e (snd (LoadConfig w)) ->
  e = EvUserHomeDir \/ exists p, e = EvOpen p \/ e = EvClose p.
Proof.
  destruct (LoadConfig_shape w)
    as [(e' & _ & HL) | [(h & e' & _ & _ & HL)
       | [(h & f & c & e' & _ & _ & _ & HL) | (h & f & c & _ & _ & _ & HL)]]];
    rewrite HL; simpl; intuition eauto.
Qed.

(** Splits a membership in a trace into the events it can be. *)
Ltac in_cases :=
  repeat match goal with
         | H : In _ (_ ++ _)%list |- _ =>
             apply in_app_or in H; destruct H as [H | H]
         | H : In _ (_ :: _) |- _ => destruct H as [H | H]
         | H : In _ [] |- _ => destruct H
         | H : In _ (shown _) |- _ => unfold shown in H
         | H : In _ ?t, R : requestDefinition ?x ?k ?w = (_, ?t) |- _ =>
             let E := fresh in
             pose proof (requestDefinition_events x k w _
                           ltac:(rewrite R; exact H)) as E;
             clear H; destruct E as [E | [? E]]
         | H : In _ ?t, R : LoadConfig ?w = (_, ?t) |- _ =>
             let E := fresh in
             pose proof (LoadConfig_events w _
                           ltac:(rewrite R; exact H)) as E;
             clear H; destruct E as [E | [? [E | E]]]
         end.

(** Closes a goal with two different events equated. *)
Ltac clash :=
  match goal with
  | H : _ = _ |- _ => discriminate H
  end.

(** The cases of a run of [main], each with the events of its trace. *)
Ltac run_cases w :=
  let H := fresh "Hrun" in
  pose proof (main_run w) as H;
  destruct (main w) as [? ?]; simpl fst in *; simpl snd in *;
  destruct H;
  try match goal with
      | H : AfterFetch _ _ _ _ _ |- _ => destruct H
      end.

(** X9. Each stage of [main] runs only after the earlier ones succeeded:
    Anki is pinged only with a configuration loaded without error; the
    dictionary is asked only with a word among the arguments, a loaded
    configuration and a ping that succeeded, and the address asked is the
    one built from that word and the configured key; the deck is searched
    only after a card was returned without error, with the query built
    from the word and the configured deck. *)
Theorem main_stage_gating (w : World) :
  (In EvPing (snd (main w)) ->
   exists config t0, LoadConfig w = (Returned (config, None), t0))
  /\ (forall u, In (EvHttpGet u) (snd (main w)) ->
        exists prog word rest config t0,
          os_Args w = prog :: word :: rest
          /\ LoadConfig w = (Returned (config, None), t0)
          /\ Client_Ping w = None
          /\ u = definitionURL word (APIKey config))
  /\ (forall q, In (EvCardsGet q) (snd (main w)) ->
        exists prog word rest config t0 card t,
          os_Args w = prog :: word :: rest
          /\ LoadConfig w = (Returned (config, None), t0)
          /\ Client_Ping w = None
          /\ requestDefinition word (APIKey config) w
             = (Returned (card, None), t)
          /\ q = duplicateQuery word (DeckName config)).
Proof.
  split; [|split].
  - intros Hin. run_cases w; eauto; in_cases; clash.
  - intros u Hin. run_cases w; in_cases; try clash;
      match goal with
      | H : EvHttpGet _ = EvHttpGet _ |- _ => injection H as H; subst u
      end;
      do 5 eexists; repeat split; first [eassumption | reflexivity].
  - intros q Hin. run_cases w; in_cases; try clash;
      match goal with
      | H : EvCardsGet _ = EvCardsGet _ |- _ => injection H as H; subst q
      end;
      match goal with
      | R : requestDefinition ?x ?k w = (Returned (?c, None), ?t) |- _ =>
          rewrite (requestDefinition_word x k w c t R)
      end;
      do 7 eexists; repeat split; first [eassumption | reflexivity].
Qed.

(** X10. Every note that [main] sends to Anki is [makeNote] of the card
    that [requestDefinition] returned without error for the first argument
    and the configured key: its deck is the configured deck and its Front
    is the title form of the first argument. *)
Theorem main_note_from_args_and_config (w : World) (n : ankiconnect.Note) :
  In (EvNotesAdd n) (snd (main w)) ->
  exists prog word rest config t0 card t,
    os_Args w = prog :: word :: rest
    /\ LoadConfig w = (Returned (config, None), t0)
    /\ requestDefinition word (APIKey config) w = (Returned (card, None), t)
    /\ n = makeNote card (DeckName config)
    /\ ankiconnect.DeckName n = DeckName config
    /\ ankiconnect.Fields n !! "Front" = Some (Caser_String word).
Proof.
  intros Hin. run_cases w; in_cases; try clash;
    match goal with
    | H : EvNotesAdd _ = EvNotesAdd _ |- _ => injection H as H; subst n
    end;
    match goal with
    | R : requestDefinition ?x ?k w = (Returned (?c, None), ?t) |- _ =>
        pose proof (requestDefinition_word x k w c t R) as Hw; subst x
    end;
    do 7 eexists; repeat split; first [eassumption | reflexivity].
Qed.

(** Two traces with the same events have the same last event. *)
Lemma last_snoc_eq (pre pre' : list Event) (a b : Event) :
  (pre ++ [a])%list = (pre' ++ [b])%list -> a = b.
Proof. intros H. apply app_inj_tail in H. tauto. Qed.

(** The help text is not the line of success. *)
Lemma helpText_not_Done : helpText <> "Done.".
Proof. vm_compute. discriminate. Qed.

Lemma println_inj (a b : string) : EvPrintln a = EvPrintln b -> a = b.
Proof.
  intros H.
  exact (f_equal (fun e => match e with EvPrintln l => l | _ => a end) H).
Qed.

(** X11. The trace of [main] ends with the line [Done.] exactly when a
    note was sent to Anki and Anki accepted it: success is never reported
    without an accepted note, and an accepted note is always reported. *)
Theorem main_done_iff_note_accepted (w : World) :
  (exists pre, snd (main w) = (pre ++ [EvPrintln "Done."])%list)
  <-> exists n, In (EvNotesAdd n) (snd (main w)) /\ Notes_Add w n = None.
Proof.
  split.
  - intros [pre Hpre]. run_cases w.
    1: { exfalso.
         change [EvPrintln helpText]
           with ([] ++ [EvPrintln helpText])%list in Hpre.
         apply last_snoc_eq, println_inj in Hpre.
         exact (helpText_not_Done Hpre). }
    all: try (eexists; split; [|eassumption];
              apply in_or_app; right; right;
              apply in_or_app; right; apply in_or_app; right;
              right; left; reflexivity).
    all: exfalso.
    all: repeat match goal with
           | R : requestDefinition _ _ _ = (Panicked _, _) |- _ =>
               apply requestDefinition_panics in R as (_ & -> & _)
           end.
    all: repeat match type of Hpre with
           | context [(?a ++ ?x :: ?b)%list] =>
               lazymatch b with
               | [] => fail
               | _ => change (a ++ x :: b)%list with (a ++ [x] ++ b)%list in Hpre;
                      rewrite (app_assoc a [x] b) in Hpre
               end
           end.
    all: rewrite ?app_assoc in Hpre; apply last_snoc_eq in Hpre;
      discriminate Hpre.
  - intros (n & Hin & Hadd). run_cases w; in_cases; try clash;
      match goal with
      | H : EvNotesAdd _ = EvNotesAdd _ |- _ => injection H as H; subst n
      end.
    + match goal with
      | H : Notes_Add _ _ = Some _ |- _ => rewrite Hadd in H; discriminate H
      end.
    + exists (t0 ++ EvPing :: t ++ shown card
                ++ [EvCardsGet (duplicateQuery (Word card) (DeckName config));
                    EvNotesAdd (makeNote card (DeckName config))])%list.
      repeat first [rewrite <- app_assoc | rewrite <- app_comm_cons].
      reflexivity.
Qed.

(** X12. The only ways in which [main] panics: the program name is the
    only argument ([os.Args[1]], index 1 of length 1); the dictionary
    answered a body read to its end whose whole text is the empty array or
    null ([cards[0]], index 0 of length 0); or the search of the deck
    returned neither a result nor an error (the result is dereferenced
    without a check). *)
Theorem main_panic_causes (w : World) (p : Panic) :
  fst (main w) = Panicked p ->
  (p = IndexOutOfRange 1 1 /\ exists prog, os_Args w = [prog])
  \/ (p = IndexOutOfRange 0 0
      /\ exists prog word rest config t0 resp,
           os_Args w = prog :: word :: rest
           /\ LoadConfig w = (Returned (config, None), t0)
           /\ http_Get w (definitionURL word (APIKey config)) = inl resp
           /\ fault (http.Body resp) = None
           /\ (checkValid (data (http.Body resp)) = inl (JArray [])
               \/ checkValid (data (http.Body resp)) = inl JNull))
  \/ (p = NilDereference
      /\ exists q, In (EvCardsGet q) (snd (main w))
                   /\ Cards_Get w q = (None, None)).
Proof.
  intros Hp. run_cases w; try discriminate Hp; injection Hp as <-.
  - left. eauto.
  - right; left.
    match goal with
    | R : requestDefinition _ _ _ = (Panicked _, _) |- _ =>
        apply requestDefinition_panics in R as (-> & _ & resp & Hg & Hf & Hv)
    end.
    split; [reflexivity|]. exists prog, word, rest, config, t0, resp. auto.
  - right; right. split; [reflexivity|]. eexists. split; [|eassumption].
    apply in_or_app; right; right. apply in_or_app; right.
    apply in_or_app; right. now left.
Qed.

(** A fresh slice holds the elements it was made of. *)
Lemma elems_slice_of (ds : list string) : elems (slice_of ds) = ds.
Proof. unfold elems, slice_of. simpl. apply take_app_length. Qed.

(** X13. The whole program on plain texts: with a word as first argument,
    a configuration file that starts with the object of a key and a deck,
    Anki up, a dictionary answering for that word and key an array of one
    entry with a part of speech and definitions, a search that finds
    nothing and an addition that is accepted, [main] returns after exactly
    eleven events: the three of the configuration, the ping, the GET, the
    three lines shown (word, part of speech, definitions one per line), the
    search, the addition of the note and [Done.]; the Back of the note is
    the part of speech, two line breaks, and the definitions separated by
    line breaks. *)
Theorem main_end_to_end (w : World) (prog word : string) (rest : list string)
    (home : string) (f : Reader) (resp : http.Response)
    (key deck trailing p : string) (ds : list string) :
  os_Args w = prog :: word :: rest ->
  os_UserHomeDir w = inl home ->
  os_Open w (configPath home) = inl f ->
  data f = configJSON key deck ++ trailing ->
  Client_Ping w = None ->
  http_Get w (definitionURL word key) = inl resp ->
  fault (http.Body resp) = None ->
  data (http.Body resp) = entryJSON p ds ->
  plain key = true -> plain deck = true ->
  plain p = true -> forallb plain ds = true ->
  Cards_Get w (duplicateQuery word deck) = (Some [], None) ->
  Notes_Add w (makeNote {| Word := word; PartOfSpeech := p;
                           Definitions := slice_of ds |} deck) = None ->
  main w
  = (Returned tt,
     [EvUserHomeDir; EvOpen (configPath home); EvClose (configPath home);
      EvPing; EvHttpGet (definitionURL word key);
      EvPrintln word; EvPrintln p; EvPrintln (String.concat newline ds);
      EvCardsGet (duplicateQuery word deck);
      EvNotesAdd (makeNote {| Word := word; PartOfSpeech := p;
                              Definitions := slice_of ds |} deck);
      EvPrintln "Done."])
  /\ ankiconnect.Fields
       (makeNote {| Word := word; PartOfSpeech := p;
                    Definitions := slice_of ds |} deck) !! "Back"
     = Some (p ++ "<br><br>" ++ String.concat "<br>" ds).
Proof.
  intros Hargs Hhome Hopen Hfile Hping Hget Hfault Hbody Hk Hd Hp Hds
         Hsearch Hadd.
  set (card := {| Word := word; PartOfSpeech := p;
                  Definitions := slice_of ds |}) in *.
  assert (HLoad : LoadConfig w
                  = (Returned ({| APIKey := key; DeckName := deck |}, None),
                     [EvUserHomeDir; EvOpen (configPath home);
                      EvClose (configPath home)])).
  { unfold LoadConfig. rewrite run_bind. unfold os.UserHomeDir, ask.
    rewrite Hhome, run_bind. unfold os.Open, ask. rewrite Hopen.
    unfold Decode. rewrite Hfile, (parse_configJSON key deck trailing Hk Hd).
    reflexivity. }
  assert (HReq : requestDefinition word key w
                 = (Returned (card, None), [EvHttpGet (definitionURL word key)])).
  { rewrite (requestDefinition_got _ _ _ _ Hget).
    rewrite (parseResponse_decoded (http.Body resp) w
               {| Word := ""; PartOfSpeech := p; Definitions := slice_of ds |}
               [] Hfault); [reflexivity|].
    unfold Unmarshal. rewrite Hbody, (parse_entryJSON p ds Hp Hds).
    cbn [storeCards storeCardElems]. rewrite storeCard_fl_shortdef.
    reflexivity. }
  split.
  - assert (Hline : addUnlessDuplicate card {| APIKey := key; DeckName := deck |} w
                    = (Returned tt,
                       [EvCardsGet (duplicateQuery word deck);
                        EvNotesAdd (makeNote card deck); EvPrintln "Done."])).
    { subst card.
      unfold addUnlessDuplicate, checkDeckForDuplicate, client.CardsGet.
      rewrite !run_bind. unfold ask. cbn [Word DeckName].
      rewrite Hsearch. cbn [length Nat.eqb negb].
      unfold addCardToDeck, client.NotesAdd. rewrite !run_bind. unfold ask.
      unfold deref. cbn -[makeNote duplicateQuery]. rewrite !run_bind.
      cbv beta. rewrite Hadd.
      reflexivity. }
    unfold main, os.Args. rewrite bind_ask. cbv beta iota. rewrite Hargs.
    change (length (prog :: word :: rest) =? 0)%nat with false. cbv iota.
    rewrite (bind_returned _ _ _ _ _ HLoad). cbv beta iota.
    unfold client.Ping. rewrite bind_ask. cbv beta iota. rewrite Hping.
    unfold elemAt. simpl nth_error.
    rewrite (bind_returned _ _ _ word [] eq_refl). cbv beta iota.
    cbn [APIKey]. rewrite (bind_returned _ _ _ _ _ HReq). cbv beta iota.
    unfold println. rewrite !bind_ask. fold println.
    change (mbind _ (checkDeckForDuplicate (Word card)
                       (DeckName {| APIKey := key; DeckName := deck |})))
      with (addUnlessDuplicate card {| APIKey := key; DeckName := deck |}).
    rewrite Hline. cbn [Word PartOfSpeech Definitions card fst snd app].
    rewrite elems_slice_of. reflexivity.
  - unfold makeNote, card. cbn [ankiconnect.Fields PartOfSpeech Definitions].
    rewrite elems_slice_of. reflexivity.
Qed.

(** The first thing [LoadConfig] does is to ask for the home directory. *)
Lemma LoadConfig_first (w : World) (o : Outcome (Config * option error))
    (t0 : list Event) :
  LoadConfig w = (o, t0) -> exists t, t0 = EvUserHomeDir :: t.
Proof.
  destruct (LoadConfig_shape w)
    as [(e' & _ & HL) | [(h & e' & _ & _ & HL)
       | [(h & f & c & e' & _ & _ & _ & HL) | (h & f & c & _ & _ & _ & HL)]]];
    rewrite HL; intros [= _ <-]; eexists; reflexivity.
Qed.

(** X14. [main] prints the help text, and nothing else, exactly when the
    argument vector is empty, the program name included; with any argument
    vector that is not empty, the program name alone also, the run starts
    by loading the configuration. *)
Theorem main_help_iff_no_args (w : World) :
  (main w = (Returned tt, [EvPrintln helpText]) <-> os_Args w = [])
  /\ (os_Args w <> [] -> exists t, snd (main w) = EvUserHomeDir :: t).
Proof.
  split; [split|].
  - intros Hm. run_cases w; try reflexivity || assumption;
      try discriminate Hm; injection Hm as Hm;
      match goal with
      | L : LoadConfig w = (_, ?t0) |- _ =>
          apply LoadConfig_first in L as [? ->]
      end; discriminate Hm.
  - intros Hargs. run_cases w; try reflexivity;
      match goal with
      | H : os_Args w <> [] |- _ => now elim H
      | H : os_Args w = _ :: _ |- _ => rewrite Hargs in H; discriminate H
      end.
  - intros Hne. run_cases w; try (now elim Hne);
      match goal with
      | L : LoadConfig w = (_, ?t0) |- _ =>
          apply LoadConfig_first in L as [? ->]
      end; eexists; reflexivity.
Qed.
End RunOfMain.

(** ** Runs of the further properties *)

Section FurtherRuns.
Import json unmarshal example.

(** A configuration file with a text after the object. *)
Lemma LoadConfig_round_trip_witness :
  LoadConfig
    (world ["dict2anki"; "tide"]
       (configJSON "k-42" "My Deck" ++ " # local") runText [])
  = (Returned ({| APIKey := "k-42"; DeckName := "My Deck" |}, None),
     [EvUserHomeDir; EvOpen (configPath home); EvClose (configPath home)]).
Proof.
  apply (LoadConfig_round_trip
           (world ["dict2anki"; "tide"]
              (configJSON "k-42" "My Deck" ++ " # local") runText [])
           home (file (configJSON "k-42" "My Deck" ++ " # local"))
           "k-42" "My Deck" " # local");
    vm_compute; reflexivity.
Defined.

(** An entry with two definitions. *)
Lemma requestDefinition_round_trip_witness :
  requestDefinition "tide" "k-42"
    (plainWorld ["dict2anki"; "tide"] "k-42" "My Deck" "noun"
       ["the rise of the sea"; "a flow"])
  = (Returned ({| Word := "tide"; PartOfSpeech := "noun";
                  Definitions := slice_of ["the rise of the sea"; "a flow"] |},
               None),
     [EvHttpGet (definitionURL "tide" "k-42")]).
Proof.
  apply (requestDefinition_round_trip
           (plainWorld ["dict2anki"; "tide"] "k-42" "My Deck" "noun"
              ["the rise of the sea"; "a flow"])
           "tide" "k-42"
           {| http.Body := file (entryJSON "noun"
                                   ["the rise of the sea"; "a flow"]) |}
           "noun" ["the rise of the sea"; "a flow"]);
    vm_compute; reflexivity.
Defined.

(** An answer whose second element is a suggested spelling. *)
Lemma requestDefinition_rejects_unshaped_witness :
  exists e,
    requestDefinition "tyde" "K"
      (world ["dict2anki"; "tyde"] configText
         ("[{" ++ q "fl" ++ ":" ++ q "noun" ++ "}," ++ q "tide" ++ "]") [])
    = (Returned (Card_zero, Some e),
       [EvHttpGet (definitionURL "tyde" "K");
        EvPrintln "Error: Failed to parse response body JSON.";
        EvPrintln "Error: Failed to parse response"]).
Proof.
  apply (requestDefinition_rejects_unshaped
           (world ["dict2anki"; "tyde"] configText
              ("[{" ++ q "fl" ++ ":" ++ q "noun" ++ "}," ++ q "tide" ++ "]")
              [])
           "tyde" "K"
           {| http.Body :=
                file ("[{" ++ q "fl" ++ ":" ++ q "noun" ++ "},"
                           ++ q "tide" ++ "]") |}
           [JObject [("fl", JString "noun")]; JString "tide"]
           (JString "tide")).
  - reflexivity.
  - reflexivity.
  - vm_compute. reflexivity.
  - right. left. reflexivity.
  - reflexivity.
Defined.

(** An answer whose only element names no field of a card. *)
Lemma requestDefinition_empty_card_witness :
  requestDefinition "tide" "K"
    (world ["dict2anki"; "tide"] configText
       ("[{" ++ q "meta" ++ ":{" ++ q "id" ++ ":" ++ q "tide" ++ "}}]") [])
  = (Returned ({| Word := "tide"; PartOfSpeech := "";
                  Definitions := nil_slice |}, None),
     [EvHttpGet (definitionURL "tide" "K")])
  /\ ankiconnect.Fields
       (@makeNote asciiTitle
          {| Word := "tide"; PartOfSpeech := ""; Definitions := nil_slice |}
          "English") !! "Back"
     = Some "<br><br>".
Proof.
  apply (requestDefinition_empty_card asciiTitle
           (world ["dict2anki"; "tide"] configText
              ("[{" ++ q "meta" ++ ":{" ++ q "id" ++ ":" ++ q "tide" ++ "}}]")
              [])
           "tide" "K" "English"
           {| http.Body :=
                file ("[{" ++ q "meta" ++ ":{" ++ q "id" ++ ":" ++ q "tide"
                           ++ "}}]") |}
           (JObject [("meta", JObject [("id", JString "tide")])]) []).
  - reflexivity.
  - reflexivity.
  - vm_compute. reflexivity.
  - intros k x [[= <- <-]|[]]. vm_compute. reflexivity.
  - reflexivity.
Defined.

(** The note of the run of the word tide, with a third argument. *)
Lemma main_note_from_args_and_config_witness :
  exists prog word rest config t0 card t,
    os_Args (plainWorld ["dict2anki"; "tide"; "ebb"] "k-42" "My Deck" "noun"
               ["the rise of the sea"; "a flow"])
    = prog :: word :: rest
    /\ LoadConfig (plainWorld ["dict2anki"; "tide"; "ebb"] "k-42" "My Deck"
                     "noun" ["the rise of the sea"; "a flow"])
       = (Returned (config, None), t0)
    /\ requestDefinition word (APIKey config)
         (plainWorld ["dict2anki"; "tide"; "ebb"] "k-42" "My Deck" "noun"
            ["the rise of the sea"; "a flow"])
       = (Returned (card, None), t)
    /\ @makeNote asciiTitle
         {| Word := "tide"; PartOfSpeech := "noun";
            Definitions := slice_of ["the rise of the sea"; "a flow"] |}
         "My Deck"
       = @makeNote asciiTitle card (DeckName config)
    /\ ankiconnect.DeckName
         (@makeNote asciiTitle
            {| Word := "tide"; PartOfSpeech := "noun";
               Definitions := slice_of ["the rise of the sea"; "a flow"] |}
            "My Deck")
       = DeckName config
    /\ ankiconnect.Fields
         (@makeNote asciiTitle
            {| Word := "tide"; PartOfSpeech := "noun";
               Definitions := slice_of ["the rise of the sea"; "a flow"] |}
            "My Deck") !! "Front"
       = Some (@Caser_String asciiTitle word).
Proof.
  apply (@main_note_from_args_and_config asciiTitle
           (plainWorld ["dict2anki"; "tide"; "ebb"] "k-42" "My Deck" "noun"
              ["the rise of the sea"; "a flow"])
           (@makeNote asciiTitle
              {| Word := "tide"; PartOfSpeech := "noun";
                 Definitions := slice_of ["the rise of the sea"; "a flow"] |}
              "My Deck")).
  vm_compute. do 9 right. left. reflexivity.
Defined.

(** A dictionary that answers [null]. *)
Lemma main_panic_causes_witness :
  (IndexOutOfRange 0 0 = IndexOutOfRange 1 1
   /\ exists prog,
        os_Args (world ["dict2anki"; "tide"] configText "null" []) = [prog])
  \/ (IndexOutOfRange 0 0 = IndexOutOfRange 0 0
      /\ exists prog word rest config t0 resp,
           os_Args (world ["dict2anki"; "tide"] configText "null" [])
           = prog :: word :: rest
           /\ LoadConfig (world ["dict2anki"; "tide"] configText "null" [])
              = (Returned (config, None), t0)
           /\ http_Get (world ["dict2anki"; "tide"] configText "null" [])
                (definitionURL word (APIKey config)) = inl resp
           /\ fault (http.Body resp) = None
           /\ (checkValid (data (http.Body resp)) = inl (JArray [])
               \/ checkValid (data (http.Body resp)) = inl JNull))
  \/ (IndexOutOfRange 0 0 = NilDereference
      /\ exists qu,
           In (EvCardsGet qu)
              (snd (@main asciiTitle
                      (world ["dict2anki"; "tide"] configText "null" [])))
           /\ Cards_Get (world ["dict2anki"; "tide"] configText "null" []) qu
              = (None, None)).
Proof.
  apply (@main_panic_causes asciiTitle
           (world ["dict2anki"; "tide"] configText "null" [])
           (IndexOutOfRange 0 0)).
  vm_compute. reflexivity.
Defined.

(** The run of the word tide into the deck My Deck. *)
Lemma main_end_to_end_witness :
  @main asciiTitle
    (plainWorld ["dict2anki"; "tide"; "ebb"] "k-42" "My Deck" "noun"
       ["the rise of the sea"; "a flow"])
  = (Returned tt,
     [EvUserHomeDir; EvOpen (configPath home); EvClose (configPath home);
      EvPing; EvHttpGet (definitionURL "tide" "k-42");
      EvPrintln "tide"; EvPrintln "noun";
      EvPrintln (String.concat newline ["the rise of the sea"; "a flow"]);
      EvCardsGet (duplicateQuery "tide" "My Deck");
      EvNotesAdd
        (@makeNote asciiTitle
           {| Word := "tide"; PartOfSpeech := "noun";
              Definitions := slice_of ["the rise of the sea"; "a flow"] |}
           "My Deck");
      EvPrintln "Done."])
  /\ ankiconnect.Fields
       (@makeNote asciiTitle
          {| Word := "tide"; PartOfSpeech := "noun";
             Definitions := slice_of ["the rise of the sea"; "a flow"] |}
          "My Deck") !! "Back"
     = Some "noun<br><br>the rise of the sea<br>a flow".
Proof.
  apply (@main_end_to_end asciiTitle
           (plainWorld ["dict2anki"; "tide"; "ebb"] "k-42" "My Deck" "noun"
              ["the rise of the sea"; "a flow"])
           "dict2anki" "tide" ["ebb"] home
           (file (configJSON "k-42" "My Deck"))
           {| http.Body := file (entryJSON "noun"
                                   ["the rise of the sea"; "a flow"]) |}
           "k-42" "My Deck" "" "noun" ["the rise of the sea"; "a flow"]);
    vm_compute; reflexivity.
Defined.

End FurtherRuns.
